(** * GoHighLevel MCP adapter: API client and tool modules

    A shallow embedding of the JavaScript sources of the adapter
    ([GHLApiClient] and the per-domain [*Tools] classes) together with
    the properties stated about them.

    Conventions of the embedding:
    - JavaScript values are the inductive [value]; numbers are integers
      ([Z]), which covers HTTP status codes, pagination bounds and
      lengths (fractions, NaN and the infinities are outside the model);
    - object literals are finite maps from property names to values;
    - an [async] method is a computation in the monad [M]: it reads the
      remote platform, threads the client state and the list of HTTP
      requests sent so far, and ends either by returning or by throwing;
    - diagnostic output ([process.stderr.write], [console.error]) is
      observability only and is left out. *)

From stdpp Require Import base strings gmap list pretty.

Set Warnings "-register-all".
Open Scope Z_scope.

(** ** JavaScript values *)

Inductive value : Type :=
  | VUndefined
  | VNull
  | VBool (b : bool)
  | VNum (n : Z)
  | VStr (s : string)
  | VArr (elems : list value)
  | VObj (props : gmap string value).

Abbreviation obj := (gmap string value).

(** ToBoolean: [undefined], [null], [false], [0] and the empty string are
    falsy; every array and every object is truthy. *)
Definition truthy (v : value) : bool :=
  match v with
  | VUndefined | VNull => false
  | VBool b => b
  | VNum n => negb (n =? 0)
  | VStr s => negb (String.eqb s "")
  | VArr _ | VObj _ => true
  end.

(** [a || b] and [a && b]. *)
Definition js_or (a b : value) : value := if truthy a then a else b.
Definition js_and (a b : value) : value := if truthy a then b else a.

(** An array element as [Array.prototype.join] prints it. *)
Definition elem_string (f : value -> string) (x : value) : string :=
  match x with
  | VUndefined | VNull => ""
  | _ => f x
  end.

Fixpoint join_with (f : value -> string) (sep : string) (l : list value) : string :=
  match l with
  | [] => ""
  | [x] => elem_string f x
  | x :: rest => elem_string f x +:+ sep +:+ join_with f sep rest
  end.

(** ToString, as applied by template literals and [String(...)]. *)
Fixpoint to_string (v : value) : string :=
  match v with
  | VUndefined => "undefined"
  | VNull => "null"
  | VBool b => if b then "true" else "false"
  | VNum n => pretty n
  | VStr s => s
  | VArr l => join_with to_string "," l
  | VObj _ => "[object Object]"
  end.

(** [arr.join(sep)]. *)
Definition array_join (sep : string) (l : list value) : string :=
  join_with to_string sep l.

Definition is_array (v : value) : bool :=
  match v with VArr _ => true | _ => false end.

Definition is_number (v : value) : bool :=
  match v with VNum _ => true | _ => false end.

(** [typeof v === 'object'] *)
Definition typeof_object (v : value) : bool :=
  match v with VNull | VArr _ | VObj _ => true | _ => false end.

(** Property read [v.k].  [None] is the TypeError raised on [undefined]
    and [null].  Of the inherited properties only [length] of strings and
    arrays is modelled; the sources read no other one through a plain
    property access. *)
Definition get (v : value) (k : string) : option value :=
  match v with
  | VUndefined | VNull => None
  | VObj o => Some (default VUndefined (o !! k))
  | VArr l => Some (if String.eqb k "length" then VNum (Z.of_nat (length l)) else VUndefined)
  | VStr s => Some (if String.eqb k "length" then VNum (Z.of_nat (String.length s)) else VUndefined)
  | VBool _ | VNum _ => Some VUndefined
  end.

(** Optional chaining [v?.k]. *)
Definition get_opt (v : value) (k : string) : value :=
  default VUndefined (get v k).

(** [{ ...(c && { k: v }) }] inside an object literal under construction:
    the conjunction is the one-property object when [c] is truthy and the
    falsy [c] itself otherwise, and spreading a falsy primitive adds no
    property. *)
Definition spread_when (c : value) (k : string) (v : value) (o : obj) : obj :=
  if truthy c then <[k := v]> o else o.

(** [String.prototype.trim] on the ASCII white space characters. *)
Definition is_space (a : Ascii.ascii) : bool :=
  let n := Ascii.N_of_ascii a in
  (((9 <=? n) && (n <=? 13)) || (n =? 32))%N.

Fixpoint trim_left (s : string) : string :=
  match s with
  | String a rest => if is_space a then trim_left rest else s
  | EmptyString => EmptyString
  end.

Definition trim (s : string) : string :=
  String.rev (trim_left (String.rev (trim_left s))).

(** ** HTTP layer *)

Inductive Body : Type :=
  | NoBody
  | JsonBody (payload : value)
  | FormBody (fields : list (string * value)).

Record Request : Type := mkRequest {
  req_method : string;
  req_url : string;
  req_params : option obj;
  req_body : Body;
  req_headers : obj
}.

Record Response : Type := mkResponse {
  status : Z;
  statusText : string;
  data : value
}.

(** What the transport delivers for one request: an HTTP response of any
    status, or no response at all (connection failure, timeout) with the
    transport's error text. *)
Inductive Reply : Type :=
  | Answered (r : Response)
  | NoAnswer (text : string).

(** A thrown JavaScript error: its [message] and, for an error raised by
    the HTTP library, the [response] it carries. *)
Record Exn : Type := mkExn {
  exn_message : string;
  exn_response : option Response
}.

(** [new Error(msg)] *)
Definition Error (msg : string) : Exn :=
  {| exn_message := msg; exn_response := None |}.

(** ** Data model *)

Record ClientConfig : Type := mkConfig {
  baseUrl : value;
  accessToken : value;
  version : value;
  locationId : value
}.

Record ApiError : Type := mkApiError {
  message : string;
  statusCode : Z;
  details : value
}.

Record ApiResult : Type := mkApiResult {
  success : bool;
  result_data : value;
  error : option ApiError
}.

(** The client object: its configuration and the default headers held by
    its HTTP instance. *)
Record GHLApiClient : Type := mkClient {
  config : ClientConfig;
  defaults_headers : obj
}.

(** The state a call runs in: the client, the remote platform (which may
    answer depending on the requests it has already seen) and the
    requests sent so far, oldest first. *)
Record World : Type := mkWorld {
  ghlClient : GHLApiClient;
  remote : list Request -> Request -> Reply;
  sent : list Request
}.

(** ** Computations *)

Inductive Result (A : Type) : Type :=
  | Returned (a : A)
  | Thrown (e : Exn).
Arguments Returned {A} a.
Arguments Thrown {A} e.

Definition M (A : Type) : Type := World -> Result A * World.

Definition ret {A} (a : A) : M A := fun w => (Returned a, w).
Definition throw {A} (e : Exn) : M A := fun w => (Thrown e, w).
Definition bind {A B} (m : M A) (k : A -> M B) : M B :=
  fun w => match m w with
           | (Returned a, w') => k a w'
           | (Thrown e, w') => (Thrown e, w')
           end.

(** [try { m } catch (error) { h error }] *)
Definition try_catch {A} (m : M A) (h : Exn -> M A) : M A :=
  fun w => match m w with
           | (Returned a, w') => (Returned a, w')
           | (Thrown e, w') => h e w'
           end.

Declare Scope js_scope.
Delimit Scope js_scope with js.
Notation "'let*' x ':=' m 'in' k" := (bind m (fun x => k))
  (at level 10, x name, m at level 100, k at level 200) : js_scope.
Notation "m ';;' k" := (bind m (fun _ => k))
  (at level 100, k at level 200, right associativity) : js_scope.
Open Scope js_scope.

Definition this_config : M ClientConfig := fun w => (Returned (config (ghlClient w)), w).

(** The engine's TypeError for reading the property [k] of [undefined] or
    [null]. *)
Definition type_error_read (recv : value) (k : string) : Exn :=
  Error ("Cannot read properties of " +:+ to_string recv +:+ " (reading '" +:+ k +:+ "')").

(** The property read [v.k] as a step of a computation. *)
Definition prop (v : value) (k : string) : M value :=
  match get v k with
  | Some x => ret x
  | None => throw (type_error_read v k)
  end.

(** [v.trim()] for a truthy [v]; [what] is the source text of [v]. *)
Definition call_trim (what : string) (v : value) : M value :=
  match v with
  | VStr s => ret (VStr (trim s))
  | _ => throw (Error (what +:+ ".trim is not a function"))
  end.

(** ** GHLApiClient *)

(** [constructor(config)]: keeps the configuration and creates the HTTP
    instance with its default headers. *)
Definition new_GHLApiClient (cfg : ClientConfig) : GHLApiClient :=
  {| config := cfg;
     defaults_headers :=
       <["Accept" := VStr "application/json"]>
       (<["Content-Type" := VStr "application/json"]>
       (<["Version" := version cfg]>
       (<["Authorization" := VStr ("Bearer " +:+ to_string (accessToken cfg))]> ∅))) |}.

(** [error.response?.status || 500] *)
Definition response_status (error : Exn) : Z :=
  match exn_response error with
  | Some r => if status r =? 0 then 500 else status r
  | None => 500
  end.

(** [error.response?.data] *)
Definition response_data (error : Exn) : value :=
  match exn_response error with
  | Some r => data r
  | None => VUndefined
  end.

(** Handle API errors and convert to standardized format. *)
Definition handleApiError (error : Exn) : Exn :=
  let status := response_status error in
  let message :=
    js_or (get_opt (response_data error) "message")
          (js_or (VStr (exn_message error)) (VStr "Unknown error")) in
  let errorMessage :=
    match message with
    | VArr l => VStr (array_join ", " l)
    | _ => message
    end in
  Error ("GHL API Error (" +:+ pretty status +:+ "): " +:+ to_string errorMessage).

(** The error the HTTP library raises for a response outside 2xx. *)
Definition bad_status_error (r : Response) : Exn :=
  {| exn_message := "Request failed with status code " +:+ pretty (status r);
     exn_response := Some r |}.

(** The error the HTTP library raises when no response arrives. *)
Definition transport_error (text : string) : Exn :=
  {| exn_message := text; exn_response := None |}.

(** The request as the HTTP instance sends it: with the client's default
    headers under the per-call ones. *)
Definition outgoing (w : World) (r : Request) : Request :=
  {| req_method := req_method r; req_url := req_url r;
     req_params := req_params r; req_body := req_body r;
     req_headers := req_headers r ∪ defaults_headers (ghlClient w) |}.

(** A status inside the 2xx range. *)
Definition is_2xx (st : Z) : bool := (200 <=? st) && (st <? 300).

(** The state after [req] has gone out. *)
Definition record_sent (req : Request) (w : World) : World :=
  {| ghlClient := ghlClient w; remote := remote w; sent := sent w ++ [req] |}.

(** One request through the HTTP instance: the request is sent, and the
    response interceptor passes a 2xx response through and rejects every
    failure with [handleApiError] of it. *)
Definition axios_request (r : Request) : M Response :=
  fun w =>
    let req := outgoing w r in
    let w' := record_sent req w in
    match remote w (sent w) req with
    | Answered resp =>
        if is_2xx (status resp)
        then (Returned resp, w')
        else (Thrown (handleApiError (bad_status_error resp)), w')
    | NoAnswer text => (Thrown (handleApiError (transport_error text)), w')
    end.

Definition axios_get (url : string) (params : option obj) (headers : obj) : M Response :=
  axios_request (mkRequest "GET" url params NoBody headers).

Definition axios_post (url : string) (body : Body) (headers : obj) : M Response :=
  axios_request (mkRequest "POST" url None body headers).

(** Wrap API responses in standardized format. *)
Definition wrapResponse (d : value) : ApiResult :=
  {| success := true; result_data := d; error := None |}.

(** Create custom headers for different API versions. *)
Definition getConversationHeaders : M obj :=
  let* cfg := this_config in
  ret (<["Accept" := VStr "application/json"]>
       (<["Content-Type" := VStr "application/json"]>
       (<["Version" := VStr "2021-04-15"]>
       (<["Authorization" := VStr ("Bearer " +:+ to_string (accessToken cfg))]> ∅)))).

(** Own enumerable properties copied by [{ ...v }]: those of an object,
    the indexed elements of an array or the characters of a string, and
    nothing for the other primitives. *)
Definition indexed (l : list value) : obj :=
  list_to_map (imap (fun i x => (pretty (Z.of_nat i), x)) l).

Fixpoint chars (s : string) : list value :=
  match s with
  | String a rest => VStr (String a EmptyString) :: chars rest
  | EmptyString => []
  end.

Definition spread (v : value) : obj :=
  match v with
  | VObj o => o
  | VArr l => indexed l
  | VStr s => indexed (chars s)
  | _ => ∅
  end.

(** Create a new contact: POST /contacts/ *)
Definition createContact (contactData : value) : M ApiResult :=
  try_catch
    (let* cfg := this_config in
     let* loc := prop contactData "locationId" in
     let payload := <["locationId" := js_or loc (locationId cfg)]> (spread contactData) in
     let* response := axios_post "/contacts/" (JsonBody (VObj payload)) ∅ in
     let* contact := prop (data response) "contact" in
     ret (wrapResponse contact))
    (fun error => throw error).

(** [if (c) { payload.k = v }] *)
Definition assign_when (c : bool) (k : string) (v : value) (o : obj) : obj :=
  if c then <[k := v]> o else o.

(** [if (v && v.trim()) { payload.k = v.trim() }]; [what] is the source
    text of [v], which the engine prints when [trim] is missing. *)
Definition assign_trimmed (what : string) (v : value) (k : string) (o : obj) : M obj :=
  if truthy v
  then let* t := call_trim what v in ret (assign_when (truthy t) k t o)
  else ret o.

(** The body of [if (searchParams.filters) { ... }]: the local [filters]
    object and the [hasFilters] flag, updated together by each test. *)
Definition set_filter (c : bool) (k : string) (v : value) (st : obj * bool) : obj * bool :=
  if c then (<[k := v]> (fst st), true) else st.

Definition set_filter_trimmed (what : string) (v : value) (k : string)
    (st : obj * bool) : M (obj * bool) :=
  if truthy v
  then let* t := call_trim what v in ret (set_filter (truthy t) k t st)
  else ret st.

Definition has_elements (v : value) : bool :=
  match v with
  | VArr l => 0 <? Z.of_nat (length l)
  | _ => false
  end.

Definition contact_filters (f : value) (payload : obj) : M obj :=
  let* st1 := set_filter_trimmed "searchParams.filters.email" (get_opt f "email") "email" (∅, false) in
  let* st2 := set_filter_trimmed "searchParams.filters.phone" (get_opt f "phone") "phone" st1 in
  let tags := get_opt f "tags" in
  let st3 := set_filter (truthy tags && is_array tags && has_elements tags) "tags" tags st2 in
  let dateAdded := get_opt f "dateAdded" in
  let st4 := set_filter (truthy dateAdded && typeof_object dateAdded) "dateAdded" dateAdded st3 in
  ret (assign_when (snd st4) "filters" (VObj (fst st4)) payload).

(** The request body [searchContacts] builds before it posts: the
    location and the page limit, then each optional parameter that has a
    valid value. *)
Definition searchContacts_payload (cfg : ClientConfig) (searchParams : value) : M obj :=
  let* loc := prop searchParams "locationId" in
  let* limit := prop searchParams "limit" in
  let payload0 : obj :=
    <["pageLimit" := js_or limit (VNum 25)]>
    (<["locationId" := js_or loc (locationId cfg)]> ∅) in
  let* query := prop searchParams "query" in
  let* payload1 := assign_trimmed "searchParams.query" query "query" payload0 in
  let* startAfterId := prop searchParams "startAfterId" in
  let* payload2 :=
    assign_trimmed "searchParams.startAfterId" startAfterId "startAfterId" payload1 in
  let* startAfter := prop searchParams "startAfter" in
  let payload3 :=
    assign_when (truthy startAfter && is_number startAfter) "startAfter" startAfter payload2 in
  let* filters := prop searchParams "filters" in
  if truthy filters then contact_filters filters payload3 else ret payload3.

(** Search contacts with advanced filters: POST /contacts/search *)
Definition searchContacts (searchParams : value) : M ApiResult :=
  try_catch
    (let* cfg := this_config in
     let* payload := searchContacts_payload cfg searchParams in
     let* response := axios_post "/contacts/search" (JsonBody (VObj payload)) ∅ in
     ret (wrapResponse (data response)))
    (fun axiosError =>
       let handledError := handleApiError axiosError in
       ret {| success := false;
              result_data := VUndefined;
              error := Some {| message := exn_message handledError;
                               statusCode := response_status axiosError;
                               details := response_data axiosError |} |}).

(** Search conversations with filters: GET /conversations/search *)
Definition searchConversations (searchParams : value) : M ApiResult :=
  try_catch
    (let* cfg := this_config in
     let* loc := prop searchParams "locationId" in
     let params := <["locationId" := js_or loc (locationId cfg)]> (spread searchParams) in
     let* headers := getConversationHeaders in
     let* response := axios_get "/conversations/search" (Some params) headers in
     ret (wrapResponse (data response)))
    (fun error => throw error).

(** [if (src.k) { params.k = src.k }] *)
Definition copy_truthy (src : value) (o : obj) (k : string) : obj :=
  assign_when (truthy (get_opt src k)) k (get_opt src k) o.

(** [if (src.k !== undefined) { params.k = src.k }] *)
Definition copy_defined (src : value) (o : obj) (k : string) : obj :=
  match get_opt src k with
  | VUndefined => o
  | v => <[k := v]> o
  end.

(** The query [searchOpportunities] builds before it sends, with the
    API's own parameter names: the location, then each optional parameter
    that has a value. *)
Definition searchOpportunities_params (cfg : ClientConfig) (searchParams : value) : M obj :=
  let* loc := prop searchParams "location_id" in
  let params0 : obj := <["location_id" := js_or loc (locationId cfg)]> ∅ in
  let* q := prop searchParams "q" in
  let* params1 := assign_trimmed "searchParams.q" q "q" params0 in
  let params2 :=
    foldl (copy_truthy searchParams) params1
      ["pipeline_id"; "pipeline_stage_id"; "contact_id"; "status"; "assigned_to";
       "campaignId"; "id"; "order"; "endDate"; "startAfter"; "startAfterId";
       "date"; "country"; "page"; "limit"] in
  ret (foldl (copy_defined searchParams) params2
         ["getTasks"; "getNotes"; "getCalendarEvents"]).

(** Search opportunities with advanced filters: GET /opportunities/search *)
Definition searchOpportunities (searchParams : value) : M ApiResult :=
  try_catch
    (let* cfg := this_config in
     let* params := searchOpportunities_params cfg searchParams in
     let* response := axios_get "/opportunities/search" (Some params) ∅ in
     ret (wrapResponse (data response)))
    (fun axiosError => throw (handleApiError axiosError)).

(** Get all pipelines for a location: GET /opportunities/pipelines *)
Definition getPipelines (location_id : value) : M ApiResult :=
  try_catch
    (let* cfg := this_config in
     let params : obj := <["locationId" := js_or location_id (locationId cfg)]> ∅ in
     let* response := axios_get "/opportunities/pipelines" (Some params) ∅ in
     ret (wrapResponse (data response)))
    (fun error => throw (handleApiError error)).

(** Get opportunity by ID: GET /opportunities/{id} *)
Definition getOpportunity (opportunityId : value) : M ApiResult :=
  try_catch
    (let* response := axios_get ("/opportunities/" +:+ to_string opportunityId) None ∅ in
     let* opportunity := prop (data response) "opportunity" in
     ret (wrapResponse opportunity))
    (fun error => throw (handleApiError error)).

(** Search locations/sub-accounts: GET /locations/search.  The parameter
    has the default value [{}]. *)
Definition searchLocations (params : value) : M ApiResult :=
  let params := match params with VUndefined => VObj ∅ | _ => params end in
  try_catch
    (let* skip := prop params "skip" in
     let* limit := prop params "limit" in
     let* order := prop params "order" in
     let* companyId := prop params "companyId" in
     let* email := prop params "email" in
     let queryParams : obj :=
       spread_when email "email" email
       (spread_when companyId "companyId" companyId
       (<["order" := js_or order (VStr "asc")]>
       (<["limit" := js_or limit (VNum 10)]>
       (<["skip" := js_or skip (VNum 0)]> ∅)))) in
     let* response := axios_get "/locations/search" (Some queryParams) ∅ in
     ret (wrapResponse (data response)))
    (fun error => throw (handleApiError error)).

(** Get location tag by ID: GET /locations/{locationId}/tags/{tagId} *)
Definition getLocationTag (location_id tagId : value) : M ApiResult :=
  try_catch
    (let* response :=
       axios_get ("/locations/" +:+ to_string location_id +:+ "/tags/" +:+ to_string tagId)
                 None ∅ in
     ret (wrapResponse (data response)))
    (fun error => throw (handleApiError error)).

(** Verify email address or contact: POST /email/verify, with the
    location as the query. *)
Definition verifyEmail (location_id verificationData : value) : M ApiResult :=
  try_catch
    (let params : obj := <["locationId" := location_id]> ∅ in
     let* response :=
       axios_request
         (mkRequest "POST" "/email/verify" (Some params) (JsonBody verificationData) ∅) in
     ret (wrapResponse (data response)))
    (fun error => throw (handleApiError error)).

(** [if (c) { formData.append(k, v) }] *)
Definition append_when (c : bool) (k : string) (v : value)
    (form : list (string * value)) : list (string * value) :=
  if c then form ++ [(k, v)] else form.

(** Upload file to media library: POST /medias/upload-file *)
Definition uploadMediaFile (uploadData : value) : M ApiResult :=
  try_catch
    (let* hosted := prop uploadData "hosted" in
     let* fileUrl := prop uploadData "fileUrl" in
     let* file := prop uploadData "file" in
     let* formData :=
       (if truthy hosted && truthy fileUrl
        then ret [("hosted", VStr "true"); ("fileUrl", fileUrl)]
        else if truthy file
        then ret [("hosted", VStr "false"); ("file", file)]
        else throw (Error "Either file or fileUrl (with hosted=true) must be provided")) in
     let* name := prop uploadData "name" in
     let* parentId := prop uploadData "parentId" in
     let formData :=
       append_when (truthy parentId) "parentId" parentId
         (append_when (truthy name) "name" name formData) in
     let* response :=
       axios_post "/medias/upload-file" (FormBody formData)
                  (<["Content-Type" := VStr "multipart/form-data"]> ∅) in
     ret (wrapResponse (data response)))
    (fun error => throw (handleApiError error)).

(** Update access token. *)
Definition updateAccessToken (newToken : value) : M unit :=
  fun w =>
    let c := ghlClient w in
    let cfg := config c in
    (Returned tt,
     {| ghlClient :=
          {| config := {| baseUrl := baseUrl cfg; accessToken := newToken;
                          version := version cfg; locationId := locationId cfg |};
             defaults_headers :=
               <["Authorization" := VStr ("Bearer " +:+ to_string newToken)]>
                 (defaults_headers c) |};
        remote := remote w;
        sent := sent w |}).

(** Get current configuration: a copy, [{ ...this.config }]. *)
Definition getConfig : M ClientConfig :=
  let* cfg := this_config in
  ret {| baseUrl := baseUrl cfg; accessToken := accessToken cfg;
         version := version cfg; locationId := locationId cfg |}.

(** ** Tool modules *)

(** [response.error?.message || dflt] *)
Definition error_message_or (response : ApiResult) (dflt : string) : string :=
  match error response with
  | Some e => if String.eqb (message e) "" then dflt else message e
  | None => dflt
  end.

(** The test [!response.success || !response.data] that guards the error
    branch of the tool methods. *)
Definition failed (response : ApiResult) : bool :=
  negb (success response) || negb (truthy (result_data response)).

Definition is_undefined (v : value) : bool :=
  match v with VUndefined => true | _ => false end.

(** [LocationTools.searchLocations] *)
Definition LocationTools_searchLocations (params : value) : M value :=
  try_catch
    (let* response := searchLocations params in
     if failed response
     then throw (Error ("API request failed: " +:+ error_message_or response "Unknown API error"))
     else
       let* found := prop (result_data response) "locations" in
       let locations := js_or found (VArr []) in
       let* len := prop locations "length" in
       ret (VObj (<["message" := VStr ("Found " +:+ to_string len +:+ " locations")]>
                 (<["locations" := locations]>
                 (<["success" := VBool true]> ∅)))))
    (fun error => throw (Error ("Failed to search locations: " +:+ exn_message error))).

(** [OpportunityTools.getOpportunity] *)
Definition OpportunityTools_getOpportunity (opportunityId : value) : M value :=
  try_catch
    (let* response := getOpportunity opportunityId in
     if failed response
     then throw (Error ("API request failed: " +:+ error_message_or response "Unknown API error"))
     else
       ret (VObj (<["message" := VStr "Opportunity retrieved successfully"]>
                 (<["opportunity" := result_data response]>
                 (<["success" := VBool true]> ∅)))))
    (fun error => throw (Error ("Failed to get opportunity: " +:+ exn_message error))).

(** [if (c) { throw new Error(msg) }] *)
Definition throw_when (c : bool) (msg : string) : M unit :=
  if c then throw (Error msg) else ret tt.

(** [MediaTools.uploadMediaFile] *)
Definition MediaTools_uploadMediaFile (params : value) : M value :=
  try_catch
    (let* hosted := prop params "hosted" in
     let* fileUrl := prop params "fileUrl" in
     throw_when (truthy hosted && negb (truthy fileUrl))
                "fileUrl is required when hosted=true" ;;
     let* file := prop params "file" in
     throw_when (negb (truthy hosted) && negb (truthy file))
                "file is required when hosted=false or not specified" ;;
     let* altType := prop params "altType" in
     let* altId := prop params "altId" in
     let* altId' :=
       (if truthy altId then ret altId
        else let* cfg := getConfig in ret (locationId cfg)) in
     let* name := prop params "name" in
     let* parentId := prop params "parentId" in
     let uploadData : obj :=
       spread_when parentId "parentId" parentId
       (spread_when name "name" name
       (spread_when file "file" file
       (spread_when fileUrl "fileUrl" fileUrl
       (spread_when (VBool (negb (is_undefined hosted))) "hosted" hosted
       (<["altId" := altId']>
       (<["altType" := js_or altType (VStr "location")]> ∅)))))) in
     let* response := uploadMediaFile (VObj uploadData) in
     if failed response
     then throw (Error ("API request failed: " +:+ error_message_or response "Unknown API error"))
     else
       let* fileId := prop (result_data response) "fileId" in
       let* url := prop (result_data response) "url" in
       ret (VObj (<["message" := VStr ("File uploaded successfully with ID: " +:+ to_string fileId)]>
                 (<["url" := url]>
                 (<["fileId" := fileId]>
                 (<["success" := VBool true]> ∅))))))
    (fun error => throw (Error ("Failed to upload media file: " +:+ exn_message error))).

(** The tool classes of the adapter. *)
Inductive ToolModule : Type :=
  | LocationTools
  | ConversationTools
  | EmailISVTools
  | OpportunityTools
  | ContactTools
  | EmailTools
  | MediaTools
  | WorkflowTools.

(** A tool descriptor.  Its [description] and [inputSchema] are
    documentation that no code path reads, and only the [name] is kept. *)
Record ToolDescriptor : Type := mkTool { name : string }.

(** The catalog of each class ([getToolDefinitions], and [getTools] of
    [WorkflowTools]). *)
Definition getToolDefinitions (m : ToolModule) : list ToolDescriptor :=
  map mkTool
  match m with
  | LocationTools =>
      ["search_locations"; "get_location"; "create_location"; "update_location";
       "delete_location"; "get_location_tags"; "create_location_tag";
       "get_location_tag"; "update_location_tag"; "delete_location_tag";
       "search_location_tasks"; "get_location_custom_fields";
       "create_location_custom_field"; "get_location_custom_field";
       "update_location_custom_field"; "delete_location_custom_field";
       "get_location_custom_values"; "create_location_custom_value";
       "get_location_custom_value"; "update_location_custom_value";
       "delete_location_custom_value"; "get_location_templates";
       "delete_location_template"; "get_timezones"]
  | ConversationTools =>
      ["send_sms"; "send_email"; "search_conversations"; "get_conversation";
       "create_conversation"; "update_conversation"; "get_recent_messages";
       "delete_conversation"; "get_email_message"; "get_message";
       "upload_message_attachments"; "update_message_status";
       "add_inbound_message"; "add_outbound_call"; "get_message_recording";
       "get_message_transcription"; "download_transcription";
       "cancel_scheduled_message"; "cancel_scheduled_email"; "live_chat_typing"]
  | EmailISVTools =>
      ["verify_email"]
  | OpportunityTools =>
      ["search_opportunities"; "get_pipelines"; "get_opportunity";
       "create_opportunity"; "update_opportunity_status"; "delete_opportunity";
       "update_opportunity"; "upsert_opportunity"; "add_opportunity_followers";
       "remove_opportunity_followers"]
  | ContactTools =>
      ["create_contact"; "search_contacts"; "get_contact"; "update_contact";
       "delete_contact"; "add_contact_tags"; "remove_contact_tags";
       "get_contact_tasks"; "create_contact_task"; "get_contact_task";
       "update_contact_task"; "delete_contact_task"; "update_task_completion";
       "get_contact_notes"; "create_contact_note"; "get_contact_note";
       "update_contact_note"; "delete_contact_note"; "upsert_contact";
       "get_duplicate_contact"; "get_contacts_by_business";
       "get_contact_appointments"; "bulk_update_contact_tags";
       "bulk_update_contact_business"; "add_contact_followers";
       "remove_contact_followers"; "add_contact_to_campaign";
       "remove_contact_from_campaign"; "remove_contact_from_all_campaigns";
       "add_contact_to_workflow"; "remove_contact_from_workflow"]
  | EmailTools =>
      ["get_email_campaigns"; "create_email_template"; "get_email_templates";
       "update_email_template"; "delete_email_template"]
  | MediaTools =>
      ["get_media_files"; "upload_media_file"; "delete_media_file"]
  | WorkflowTools =>
      ["ghl_get_workflows"]
  end.


(** One [case 'label': return this.method(...)] of a dispatcher. *)
Definition Case : Type := string * (value -> M value).

(** [switch (name) { case ...: ... default: ... }] with strict equality
    on the labels, first match first. *)
Fixpoint switch (cases : list Case) (default : M value) (toolName : string)
    (args : value) : M value :=
  match cases with
  | [] => default
  | (label, body) :: rest =>
      if String.eqb toolName label then body args
      else switch rest default toolName args
  end.

Section Dispatch.

(** The tool methods whose bodies are not embedded here, by class and
    method name, applied to their argument list. *)
Variable method : ToolModule -> string -> list value -> M value.

Definition LocationTools_cases : list Case :=
  [
    ("search_locations", fun args => LocationTools_searchLocations args);
    ("get_location", fun args => method LocationTools "getLocation" [args]);
    ("create_location", fun args => method LocationTools "createLocation" [args]);
    ("update_location", fun args => method LocationTools "updateLocation" [args]);
    ("delete_location", fun args => method LocationTools "deleteLocation" [args]);
    ("get_location_tags", fun args => method LocationTools "getLocationTags" [args]);
    ("create_location_tag", fun args => method LocationTools "createLocationTag" [args]);
    ("get_location_tag", fun args => method LocationTools "getLocationTag" [args]);
    ("update_location_tag", fun args => method LocationTools "updateLocationTag" [args]);
    ("delete_location_tag", fun args => method LocationTools "deleteLocationTag" [args]);
    ("search_location_tasks", fun args => method LocationTools "searchLocationTasks" [args]);
    ("get_location_custom_fields", fun args => method LocationTools "getLocationCustomFields" [args]);
    ("create_location_custom_field", fun args => method LocationTools "createLocationCustomField" [args]);
    ("get_location_custom_field", fun args => method LocationTools "getLocationCustomField" [args]);
    ("update_location_custom_field", fun args => method LocationTools "updateLocationCustomField" [args]);
    ("delete_location_custom_field", fun args => method LocationTools "deleteLocationCustomField" [args]);
    ("get_location_custom_values", fun args => method LocationTools "getLocationCustomValues" [args]);
    ("create_location_custom_value", fun args => method LocationTools "createLocationCustomValue" [args]);
    ("get_location_custom_value", fun args => method LocationTools "getLocationCustomValue" [args]);
    ("update_location_custom_value", fun args => method LocationTools "updateLocationCustomValue" [args]);
    ("delete_location_custom_value", fun args => method LocationTools "deleteLocationCustomValue" [args]);
    ("get_location_templates", fun args => method LocationTools "getLocationTemplates" [args]);
    ("delete_location_template", fun args => method LocationTools "deleteLocationTemplate" [args]);
    ("get_timezones", fun args => method LocationTools "getTimezones" [args])
  ].

Definition ConversationTools_cases : list Case :=
  [
    ("send_sms", fun args => method ConversationTools "sendSMS" [args]);
    ("send_email", fun args => method ConversationTools "sendEmail" [args]);
    ("search_conversations", fun args => method ConversationTools "searchConversations" [args]);
    ("get_conversation", fun args => method ConversationTools "getConversation" [args]);
    ("create_conversation", fun args => method ConversationTools "createConversation" [args]);
    ("update_conversation", fun args => method ConversationTools "updateConversation" [args]);
    ("get_recent_messages", fun args => method ConversationTools "getRecentMessages" [args]);
    ("delete_conversation", fun args => method ConversationTools "deleteConversation" [args]);
    ("get_email_message", fun args => method ConversationTools "getEmailMessage" [args]);
    ("get_message", fun args => method ConversationTools "getMessage" [args]);
    ("upload_message_attachments", fun args => method ConversationTools "uploadMessageAttachments" [args]);
    ("update_message_status", fun args => method ConversationTools "updateMessageStatus" [args]);
    ("add_inbound_message", fun args => method ConversationTools "addInboundMessage" [args]);
    ("add_outbound_call", fun args => method ConversationTools "addOutboundCall" [args]);
    ("get_message_recording", fun args => method ConversationTools "getMessageRecording" [args]);
    ("get_message_transcription", fun args => method ConversationTools "getMessageTranscription" [args]);
    ("download_transcription", fun args => method ConversationTools "downloadTranscription" [args]);
    ("cancel_scheduled_message", fun args => method ConversationTools "cancelScheduledMessage" [args]);
    ("cancel_scheduled_email", fun args => method ConversationTools "cancelScheduledEmail" [args]);
    ("live_chat_typing", fun args => method ConversationTools "liveChatTyping" [args])
  ].

Definition EmailISVTools_cases : list Case :=
  [
    ("verify_email", fun args => method EmailISVTools "verifyEmail" [args])
  ].

Definition OpportunityTools_cases : list Case :=
  [
    ("search_opportunities", fun args => method OpportunityTools "searchOpportunities" [args]);
    ("get_pipelines", fun args => method OpportunityTools "getPipelines" []);
    ("get_opportunity", fun args => let* opportunityId := prop args "opportunityId" in OpportunityTools_getOpportunity opportunityId);
    ("create_opportunity", fun args => method OpportunityTools "createOpportunity" [args]);
    ("update_opportunity_status", fun args => let* opportunityId := prop args "opportunityId" in let* status := prop args "status" in method OpportunityTools "updateOpportunityStatus" [opportunityId; status]);
    ("delete_opportunity", fun args => let* opportunityId := prop args "opportunityId" in method OpportunityTools "deleteOpportunity" [opportunityId]);
    ("update_opportunity", fun args => method OpportunityTools "updateOpportunity" [args]);
    ("upsert_opportunity", fun args => method OpportunityTools "upsertOpportunity" [args]);
    ("add_opportunity_followers", fun args => method OpportunityTools "addOpportunityFollowers" [args]);
    ("remove_opportunity_followers", fun args => method OpportunityTools "removeOpportunityFollowers" [args])
  ].

Definition ContactTools_cases : list Case :=
  [
    ("create_contact", fun args => method ContactTools "createContact" [args]);
    ("search_contacts", fun args => method ContactTools "searchContacts" [args]);
    ("get_contact", fun args => let* contactId := prop args "contactId" in method ContactTools "getContact" [contactId]);
    ("update_contact", fun args => method ContactTools "updateContact" [args]);
    ("delete_contact", fun args => let* contactId := prop args "contactId" in method ContactTools "deleteContact" [contactId]);
    ("add_contact_tags", fun args => method ContactTools "addContactTags" [args]);
    ("remove_contact_tags", fun args => method ContactTools "removeContactTags" [args]);
    ("get_contact_tasks", fun args => method ContactTools "getContactTasks" [args]);
    ("create_contact_task", fun args => method ContactTools "createContactTask" [args]);
    ("get_contact_task", fun args => method ContactTools "getContactTask" [args]);
    ("update_contact_task", fun args => method ContactTools "updateContactTask" [args]);
    ("delete_contact_task", fun args => method ContactTools "deleteContactTask" [args]);
    ("update_task_completion", fun args => method ContactTools "updateTaskCompletion" [args]);
    ("get_contact_notes", fun args => method ContactTools "getContactNotes" [args]);
    ("create_contact_note", fun args => method ContactTools "createContactNote" [args]);
    ("get_contact_note", fun args => method ContactTools "getContactNote" [args]);
    ("update_contact_note", fun args => method ContactTools "updateContactNote" [args]);
    ("delete_contact_note", fun args => method ContactTools "deleteContactNote" [args]);
    ("upsert_contact", fun args => method ContactTools "upsertContact" [args]);
    ("get_duplicate_contact", fun args => method ContactTools "getDuplicateContact" [args]);
    ("get_contacts_by_business", fun args => method ContactTools "getContactsByBusiness" [args]);
    ("get_contact_appointments", fun args => method ContactTools "getContactAppointments" [args]);
    ("bulk_update_contact_tags", fun args => method ContactTools "bulkUpdateContactTags" [args]);
    ("bulk_update_contact_business", fun args => method ContactTools "bulkUpdateContactBusiness" [args]);
    ("add_contact_followers", fun args => method ContactTools "addContactFollowers" [args]);
    ("remove_contact_followers", fun args => method ContactTools "removeContactFollowers" [args]);
    ("add_contact_to_campaign", fun args => method ContactTools "addContactToCampaign" [args]);
    ("remove_contact_from_campaign", fun args => method ContactTools "removeContactFromCampaign" [args]);
    ("remove_contact_from_all_campaigns", fun args => method ContactTools "removeContactFromAllCampaigns" [args]);
    ("add_contact_to_workflow", fun args => method ContactTools "addContactToWorkflow" [args]);
    ("remove_contact_from_workflow", fun args => method ContactTools "removeContactFromWorkflow" [args])
  ].

Definition EmailTools_cases : list Case :=
  [
    ("get_email_campaigns", fun args => method EmailTools "getEmailCampaigns" [args]);
    ("create_email_template", fun args => method EmailTools "createEmailTemplate" [args]);
    ("get_email_templates", fun args => method EmailTools "getEmailTemplates" [args]);
    ("update_email_template", fun args => method EmailTools "updateEmailTemplate" [args]);
    ("delete_email_template", fun args => method EmailTools "deleteEmailTemplate" [args])
  ].

Definition MediaTools_cases : list Case :=
  [
    ("get_media_files", fun args => method MediaTools "getMediaFiles" [args]);
    ("upload_media_file", fun args => MediaTools_uploadMediaFile args);
    ("delete_media_file", fun args => method MediaTools "deleteMediaFile" [args])
  ].

Definition WorkflowTools_cases : list Case :=
  [
    ("ghl_get_workflows", fun args => method WorkflowTools "getWorkflows" [args])
  ].


Definition cases_of (m : ToolModule) : list Case :=
  match m with
  | LocationTools => LocationTools_cases
  | ConversationTools => ConversationTools_cases
  | EmailISVTools => EmailISVTools_cases
  | OpportunityTools => OpportunityTools_cases
  | ContactTools => ContactTools_cases
  | EmailTools => EmailTools_cases
  | MediaTools => MediaTools_cases
  | WorkflowTools => WorkflowTools_cases
  end.

(** The text before the tool name in the message of the [default] branch. *)
Definition unknown_prefix (m : ToolModule) : string :=
  match m with
  | LocationTools => "Unknown location tool: "
  | ConversationTools => "Unknown tool: "
  | EmailISVTools => "Unknown email ISV tool: "
  | OpportunityTools => "Unknown opportunity tool: "
  | ContactTools => "Unknown tool: "
  | EmailTools => "Unknown email tool: "
  | MediaTools => "Unknown media tool: "
  | WorkflowTools => "Unknown workflow tool: "
  end.

(** [ContactTools.executeTool] and [WorkflowTools.executeWorkflowTool]
    wrap their switch in a [try] whose handler rethrows the error. *)
Definition rethrows (m : ToolModule) : bool :=
  match m with
  | ContactTools | WorkflowTools => true
  | _ => false
  end.

(** [executeTool(name, args)] of the class [m]. *)
Definition executeTool (m : ToolModule) (toolName : string) (args : value) : M value :=
  let dispatch :=
    switch (cases_of m) (throw (Error (unknown_prefix m +:+ toolName))) toolName args in
  if rethrows m then try_catch dispatch (fun error => throw error) else dispatch.

End Dispatch.

(** ** Client operations as data *)

(** A call of one of the client methods embedded above. *)
Inductive ClientCall : Type :=
  | CreateContact (contactData : value)
  | SearchContacts (searchParams : value)
  | SearchConversations (searchParams : value)
  | SearchOpportunities (searchParams : value)
  | GetPipelines (location_id : value)
  | GetOpportunity (opportunityId : value)
  | SearchLocations (params : value)
  | GetLocationTag (location_id tagId : value)
  | UploadMediaFile (uploadData : value)
  | VerifyEmail (location_id verificationData : value)
  | GetConfig
  | UpdateAccessToken (newToken : value).

(** The state a call leaves behind. *)
Definition perform (c : ClientCall) (w : World) : World :=
  match c with
  | CreateContact d => snd (createContact d w)
  | SearchContacts p => snd (searchContacts p w)
  | SearchConversations p => snd (searchConversations p w)
  | SearchOpportunities p => snd (searchOpportunities p w)
  | GetPipelines l => snd (getPipelines l w)
  | GetOpportunity i => snd (getOpportunity i w)
  | SearchLocations p => snd (searchLocations p w)
  | GetLocationTag l t => snd (getLocationTag l t w)
  | UploadMediaFile d => snd (uploadMediaFile d w)
  | VerifyEmail l d => snd (verifyEmail l d w)
  | GetConfig => snd (getConfig w)
  | UpdateAccessToken t => snd (updateAccessToken t w)
  end.

(** ** Vocabulary of the properties *)

(** Every request sent from [w] meets an HTTP-layer failure: a response
    outside 2xx or no response at all. *)
Definition http_fails (w : World) : Prop :=
  forall r, match remote w (sent w) r with
            | Answered resp => is_2xx (status resp) = false
            | NoAnswer _ => True
            end.

(** [needle] occurs in [hay]. *)
Definition contains (hay needle : string) : Prop :=
  exists before after, hay = before +:+ needle +:+ after.

(** The message format as the specification words it. *)
Definition spec_error_message (st : Z) (msg : string) : string :=
  "Platform API Error (" +:+ pretty st +:+ "): " +:+ msg.

(** An error message that reports the HTTP status [st]. *)
Definition reports_status (e : Exn) (st : Z) : Prop :=
  exists text, exn_message e = "GHL API Error (" +:+ pretty st +:+ "): " +:+ text.

(** The location a request must be scoped by, given what the caller
    passed and the configured default: the default when the caller left
    it out, the caller's identifier when one is given. *)
Inductive scoped_location (supplied : value) (cfg : ClientConfig) : value -> Prop :=
  | location_omitted :
      supplied = VUndefined -> scoped_location supplied cfg (locationId cfg)
  | location_supplied :
      truthy supplied = true -> scoped_location supplied cfg supplied.

(** The part of the text of an error message that [handleApiError] takes
    from a truthy [message] field. *)
Definition message_text (msg : value) : string :=
  match msg with
  | VArr l => array_join ", " l
  | v => to_string v
  end.

(** [m] leaves the client (configuration and default headers) as it was. *)
Definition keeps_client {A} (m : M A) : Prop :=
  forall w, ghlClient (snd (m w)) = ghlClient w.

(** Whatever [m] returns was made by [wrapResponse]. *)
Definition wraps (m : M ApiResult) : Prop :=
  forall w r w', m w = (Returned r, w') -> exists d, r = wrapResponse d.

(** Whatever [m] throws carries no response. *)
Definition throws_plain {A} (m : M A) : Prop :=
  forall w e w', m w = (Thrown e, w') -> exn_response e = None.

(** A method whose every returned result is a success without error
    record. *)
Definition always_successful (m : M ApiResult) : Prop :=
  forall w r w', m w = (Returned r, w') -> success r = true /\ error r = None.

(** [m] leaves the whole state as it was: in particular it sends no
    request. *)
Definition silent {A} (m : M A) : Prop := forall w, snd (m w) = w.

(** The query [GHLApiClient.searchLocations] sends when [skip], [limit]
    and [order] are left out. *)
Definition default_location_query : obj :=
  <["order" := VStr "asc"]> (<["limit" := VNum 10]> (<["skip" := VNum 0]> ∅)).

(** The request of [GHLApiClient.getOpportunity] for the opportunity "x". *)
Definition get_opportunity_x : Request :=
  mkRequest "GET" "/opportunities/x" None NoBody ∅.

(** [m] ends by throwing whenever every request fails. *)
Definition meets_failure {A} (m : M A) : Prop :=
  forall w, http_fails w -> exists e w', m w = (Thrown e, w').

(** The value a request carries under [key], in its query if it has one
    and in its JSON body otherwise. *)
Definition request_field (key : string) (r : Request) : option value :=
  match req_params r with
  | Some q => q !! key
  | None =>
      match req_body r with
      | JsonBody (VObj payload) => payload !! key
      | _ => None
      end
  end.

(** From [w] to [w'] exactly one request was sent, and it carries
    [expected] under [key]. *)
Definition one_scoped (key : string) (expected : value) (w w' : World) : Prop :=
  exists req, sent w' = sent w ++ [req] /\ request_field key req = Some expected.

(** From [w] to [w'] no request was sent, or exactly one that carries
    [expected] under [key]. *)
Definition at_most_one_scoped (key : string) (expected : value) (w w' : World) : Prop :=
  sent w' = sent w \/ one_scoped key expected w w'.

(** Whatever [m] returns satisfies [Q]. *)
Definition yields {A} (m : M A) (Q : A -> Prop) : Prop :=
  forall w a w', m w = (Returned a, w') -> Q a.

(** ** Sample data *)

Definition sample_config : ClientConfig :=
  {| baseUrl := VStr "https://services.leadconnectorhq.com";
     accessToken := VStr "token-1";
     version := VStr "2021-07-28";
     locationId := VStr "loc_default" |}.

(** A fresh client on [sample_config] facing the remote [net]. *)
Definition world_of (net : list Request -> Request -> Reply) : World :=
  {| ghlClient := new_GHLApiClient sample_config; remote := net; sent := [] |}.

Definition not_found : Response :=
  {| status := 404; statusText := "Not Found";
     data := VObj (<["message" := VStr "Opportunity not found"]> ∅) |}.

Definition unprocessable : Response :=
  {| status := 422; statusText := "Unprocessable Entity";
     data := VObj (<["message" := VArr [VStr "email must be an email"; VStr "name should not be empty"]]> ∅) |}.

Definition unavailable : Response :=
  {| status := 503; statusText := "Service Unavailable";
     data := VObj (<["message" := VStr "Service Unavailable"]> ∅) |}.

Definition ok (d : value) : Response :=
  {| status := 200; statusText := "OK"; data := d |}.

Definition answers (resp : Response) : list Request -> Request -> Reply :=
  fun _ _ => Answered resp.

Definition down (text : string) : list Request -> Request -> Reply :=
  fun _ _ => NoAnswer text.

(** Tool methods outside the embedding, for runs of the dispatchers that
    do not reach them. *)
Definition no_method : ToolModule -> string -> list value -> M value :=
  fun _ _ _ => ret VUndefined.

(** ** Further vocabulary: errors and headers *)

(** The error a result carries when it is a throw. *)
Definition thrown {A} (r : Result A) : option Exn :=
  match r with
  | Thrown e => Some e
  | Returned _ => None
  end.

(** The error a client call throws from [w], if it throws. *)
Definition thrown_by (c : ClientCall) (w : World) : option Exn :=
  match c with
  | CreateContact d => thrown (fst (createContact d w))
  | SearchContacts p => thrown (fst (searchContacts p w))
  | SearchConversations p => thrown (fst (searchConversations p w))
  | SearchOpportunities p => thrown (fst (searchOpportunities p w))
  | GetPipelines l => thrown (fst (getPipelines l w))
  | GetOpportunity i => thrown (fst (getOpportunity i w))
  | SearchLocations p => thrown (fst (searchLocations p w))
  | GetLocationTag l t => thrown (fst (getLocationTag l t w))
  | UploadMediaFile d => thrown (fst (uploadMediaFile d w))
  | VerifyEmail l d => thrown (fst (verifyEmail l d w))
  | GetConfig => thrown (fst (getConfig w))
  | UpdateAccessToken t => thrown (fst (updateAccessToken t w))
  end.

(** The calls whose [catch] block is [throw this.handleApiError(error)]. *)
Definition converts_on_catch (c : ClientCall) : bool :=
  match c with
  | SearchOpportunities _ | GetPipelines _ | GetOpportunity _ | SearchLocations _
  | GetLocationTag _ _ | UploadMediaFile _ | VerifyEmail _ _ => true
  | _ => false
  end.

(** The calls of the conversations API, which send their own headers. *)
Definition is_conversation_call (c : ClientCall) : bool :=
  match c with
  | SearchConversations _ => true
  | _ => false
  end.

(** The request [r] carries the header [k] with the value [v]. *)
Definition carries (k : string) (v : value) (r : Request) : Prop :=
  req_headers r !! k = Some v.

(** The headers [getConversationHeaders] makes on the client [c] hold the
    value [v] under [k]. *)
Definition conversation_headers_agree (c : GHLApiClient) (k : string) (v : value) : Prop :=
  forall h : obj,
    h !! "Authorization" = Some (VStr ("Bearer " +:+ to_string (accessToken (config c)))) ->
    h !! "Version" = Some (VStr "2021-04-15") ->
    h !! k = Some v.

(** Run on a state whose client is [c], [m] keeps the client and sends
    only requests that satisfy [P]. *)
Definition sends {A} (P : Request -> Prop) (c : GHLApiClient) (m : M A) : Prop :=
  forall w, ghlClient w = c ->
    ghlClient (snd (m w)) = c
    /\ exists l, sent (snd (m w)) = sent w ++ l /\ Forall P l.

(** ** Further vocabulary: the tool layer *)

(** The names of all the catalogs, class after class. *)
Definition all_tool_names : list string :=
  concat (map (fun m => name <$> getToolDefinitions m)
              [LocationTools; ConversationTools; EmailISVTools; OpportunityTools;
               ContactTools; EmailTools; MediaTools; WorkflowTools]).

(** The validation of [MediaTools.uploadMediaFile] rejects the arguments. *)
Definition upload_rejected (params : value) : bool :=
  let hosted := truthy (get_opt params "hosted") in
  (hosted && negb (truthy (get_opt params "fileUrl")))
  || (negb hosted && negb (truthy (get_opt params "file"))).

(** The multipart fields the upload request carries for accepted
    arguments. *)
Definition upload_form (params : value) : list (string * value) :=
  let name := get_opt params "name" in
  let parentId := get_opt params "parentId" in
  (if truthy (get_opt params "hosted")
   then [("hosted", VStr "true"); ("fileUrl", get_opt params "fileUrl")]
   else [("hosted", VStr "false"); ("file", get_opt params "file")])
  ++ (if truthy name then [("name", name)] else [])
  ++ (if truthy parentId then [("parentId", parentId)] else []).

(** The [uploadData] object [MediaTools.uploadMediaFile] hands to the
    client for accepted arguments, on the configuration [cfg]. *)
Definition tool_upload_data (cfg : ClientConfig) (params : value) : obj :=
  let hosted := get_opt params "hosted" in
  let fileUrl := get_opt params "fileUrl" in
  let file := get_opt params "file" in
  let name := get_opt params "name" in
  let parentId := get_opt params "parentId" in
  spread_when parentId "parentId" parentId
  (spread_when name "name" name
  (spread_when file "file" file
  (spread_when fileUrl "fileUrl" fileUrl
  (spread_when (VBool (negb (is_undefined hosted))) "hosted" hosted
  (<["altId" := js_or (get_opt params "altId") (locationId cfg)]>
  (<["altType" := js_or (get_opt params "altType") (VStr "location")]> ∅)))))).

(** ** Further client methods *)

Definition axios_put (url : string) (body : Body) (headers : obj) : M Response :=
  axios_request (mkRequest "PUT" url None body headers).

(** Create a new opportunity: POST /opportunities/ *)
Definition createOpportunity (opportunityData : value) : M ApiResult :=
  try_catch
    (let* cfg := this_config in
     let* loc := prop opportunityData "locationId" in
     let payload := <["locationId" := js_or loc (locationId cfg)]> (spread opportunityData) in
     let* response := axios_post "/opportunities/" (JsonBody (VObj payload)) ∅ in
     let* opportunity := prop (data response) "opportunity" in
     ret (wrapResponse opportunity))
    (fun error => throw (handleApiError error)).

(** Update existing opportunity: PUT /opportunities/{id} *)
Definition updateOpportunity (opportunityId updates : value) : M ApiResult :=
  try_catch
    (let* response :=
       axios_put ("/opportunities/" +:+ to_string opportunityId) (JsonBody updates) ∅ in
     let* opportunity := prop (data response) "opportunity" in
     ret (wrapResponse opportunity))
    (fun error => throw (handleApiError error)).

(** Upsert opportunity (create or update): POST /opportunities/upsert *)
Definition upsertOpportunity (opportunityData : value) : M ApiResult :=
  try_catch
    (let* cfg := this_config in
     let* loc := prop opportunityData "locationId" in
     let payload := <["locationId" := js_or loc (locationId cfg)]> (spread opportunityData) in
     let* response := axios_post "/opportunities/upsert" (JsonBody (VObj payload)) ∅ in
     ret (wrapResponse (data response)))
    (fun error => throw (handleApiError error)).

(** ** Further tool methods *)

(** [Array.isArray(v) ? v : []] *)
Definition array_or_empty (v : value) : value :=
  if is_array v then v else VArr [].

(** The [searchParams] object [OpportunityTools.searchOpportunities]
    builds, with the API's parameter names: the configured location and
    the limit, then each optional parameter that has a value. *)
Definition OpportunityTools_searchParams (cfg : ClientConfig) (params : value) : M obj :=
  let* limit := prop params "limit" in
  let searchParams0 : obj :=
    <["limit" := js_or limit (VNum 20)]> (<["location_id" := locationId cfg]> ∅) in
  let* query := prop params "query" in
  let* searchParams1 := assign_trimmed "params.query" query "q" searchParams0 in
  let* pipelineId := prop params "pipelineId" in
  let* pipelineStageId := prop params "pipelineStageId" in
  let* contactId := prop params "contactId" in
  let* status := prop params "status" in
  let* assignedTo := prop params "assignedTo" in
  ret (assign_when (truthy assignedTo) "assigned_to" assignedTo
      (assign_when (truthy status) "status" status
      (assign_when (truthy contactId) "contact_id" contactId
      (assign_when (truthy pipelineStageId) "pipeline_stage_id" pipelineStageId
      (assign_when (truthy pipelineId) "pipeline_id" pipelineId searchParams1))))).

(** [OpportunityTools.searchOpportunities] *)
Definition OpportunityTools_searchOpportunities (params : value) : M value :=
  try_catch
    (let* cfg := getConfig in
     let* searchParams := OpportunityTools_searchParams cfg params in
     let* response := searchOpportunities (VObj searchParams) in
     if failed response
     then throw (Error ("API request failed: " +:+ error_message_or response "Unknown API error"))
     else
       let data := result_data response in
       let* found := prop data "opportunities" in
       let opportunities := array_or_empty found in
       let* meta := prop data "meta" in
       let* len := prop opportunities "length" in
       let total := js_or (get_opt meta "total") len in
       ret (VObj (<["message" := VStr ("Found " +:+ to_string len +:+ " opportunities ("
                                        +:+ to_string total +:+ " total)")]>
                 (<["meta" := meta]>
                 (<["opportunities" := opportunities]>
                 (<["success" := VBool true]> ∅))))))
    (fun error => throw (Error ("Failed to search opportunities: " +:+ exn_message error))).

(** The object [createOpportunity] and [upsertOpportunity] of the tool
    layer start from: the configured location first. *)
Definition with_configured_location (cfg : ClientConfig) : obj :=
  <["locationId" := locationId cfg]> ∅.

(** [OpportunityTools.createOpportunity] *)
Definition OpportunityTools_createOpportunity (params : value) : M value :=
  try_catch
    (let* cfg := getConfig in
     let* name := prop params "name" in
     let* pipelineId := prop params "pipelineId" in
     let* contactId := prop params "contactId" in
     let* status := prop params "status" in
     let* pipelineStageId := prop params "pipelineStageId" in
     let* monetaryValue := prop params "monetaryValue" in
     let* assignedTo := prop params "assignedTo" in
     let* customFields := prop params "customFields" in
     let opportunityData : obj :=
       <["customFields" := customFields]>
       (<["assignedTo" := assignedTo]>
       (<["monetaryValue" := monetaryValue]>
       (<["pipelineStageId" := pipelineStageId]>
       (<["status" := js_or status (VStr "open")]>
       (<["contactId" := contactId]>
       (<["pipelineId" := pipelineId]>
       (<["name" := name]> (with_configured_location cfg)))))))) in
     let* response := createOpportunity (VObj opportunityData) in
     if failed response
     then throw (Error ("API request failed: " +:+ error_message_or response "Unknown API error"))
     else
       let* id := prop (result_data response) "id" in
       ret (VObj (<["message" := VStr ("Opportunity created successfully with ID: "
                                        +:+ to_string id)]>
                 (<["opportunity" := result_data response]>
                 (<["success" := VBool true]> ∅)))))
    (fun error => throw (Error ("Failed to create opportunity: " +:+ exn_message error))).

(** [OpportunityTools.upsertOpportunity] *)
Definition OpportunityTools_upsertOpportunity (params : value) : M value :=
  try_catch
    (let* cfg := getConfig in
     let* pipelineId := prop params "pipelineId" in
     let* contactId := prop params "contactId" in
     let* name := prop params "name" in
     let* status := prop params "status" in
     let* pipelineStageId := prop params "pipelineStageId" in
     let* monetaryValue := prop params "monetaryValue" in
     let* assignedTo := prop params "assignedTo" in
     let upsertData : obj :=
       <["assignedTo" := assignedTo]>
       (<["monetaryValue" := monetaryValue]>
       (<["pipelineStageId" := pipelineStageId]>
       (<["status" := js_or status (VStr "open")]>
       (<["name" := name]>
       (<["contactId" := contactId]>
       (<["pipelineId" := pipelineId]> (with_configured_location cfg))))))) in
     let* response := upsertOpportunity (VObj upsertData) in
     if failed response
     then throw (Error ("API request failed: " +:+ error_message_or response "Unknown API error"))
     else
       let data := result_data response in
       let* opportunity := prop data "opportunity" in
       let* new := prop data "new" in
       ret (VObj (<["message" := VStr ("Opportunity "
                                        +:+ (if truthy new then "created" else "updated")
                                        +:+ " successfully")]>
                 (<["isNew" := new]>
                 (<["opportunity" := opportunity]>
                 (<["success" := VBool true]> ∅))))))
    (fun error => throw (Error ("Failed to upsert opportunity: " +:+ exn_message error))).

(** [OpportunityTools.updateOpportunity]: only the fields that are
    provided go into the update. *)
Definition OpportunityTools_updateOpportunity (params : value) : M value :=
  try_catch
    (let* name := prop params "name" in
     let* pipelineId := prop params "pipelineId" in
     let* pipelineStageId := prop params "pipelineStageId" in
     let* status := prop params "status" in
     let* monetaryValue := prop params "monetaryValue" in
     let* assignedTo := prop params "assignedTo" in
     let updateData : obj :=
       assign_when (truthy assignedTo) "assignedTo" assignedTo
       (assign_when (negb (is_undefined monetaryValue)) "monetaryValue" monetaryValue
       (assign_when (truthy status) "status" status
       (assign_when (truthy pipelineStageId) "pipelineStageId" pipelineStageId
       (assign_when (truthy pipelineId) "pipelineId" pipelineId
       (assign_when (truthy name) "name" name ∅))))) in
     let* opportunityId := prop params "opportunityId" in
     let* response := updateOpportunity opportunityId (VObj updateData) in
     if failed response
     then throw (Error ("API request failed: " +:+ error_message_or response "Unknown API error"))
     else
       ret (VObj (<["message" := VStr "Opportunity updated successfully"]>
                 (<["opportunity" := result_data response]>
                 (<["success" := VBool true]> ∅)))))
    (fun error => throw (Error ("Failed to update opportunity: " +:+ exn_message error))).

(** [ContactTools.searchContacts]: it has no [try] of its own. *)
Definition ContactTools_searchContacts (params : value) : M value :=
  let* cfg := getConfig in
  let* query := prop params "query" in
  let* limit := prop params "limit" in
  let* email := prop params "email" in
  let* phone := prop params "phone" in
  let filters : obj := spread_when phone "phone" phone (spread_when email "email" email ∅) in
  let* response :=
    searchContacts
      (VObj (<["filters" := VObj filters]>
            (<["limit" := limit]>
            (<["query" := query]>
            (<["locationId" := locationId cfg]> ∅))))) in
  if negb (success response)
  then throw (Error (error_message_or response "Failed to search contacts"))
  else ret (result_data response).

(** ** Further vocabulary: search queries *)

(** A string that does not start with white space. *)
Definition starts_clean (s : string) : Prop :=
  match s with
  | String a _ => is_space a = false
  | EmptyString => True
  end.

(** [v && v.trim()] can be evaluated: [v] is falsy or a string. *)
Definition trims (v : value) : bool :=
  match v with
  | VStr _ => true
  | _ => negb (truthy v)
  end.

(** The text [v.trim()] when [v && v.trim()] is truthy. *)
Definition trimmed_text (v : value) : option value :=
  match v with
  | VStr s => if truthy (VStr (trim s)) then Some (VStr (trim s)) else None
  | _ => None
  end.

(** The value stored by [if (v) { o.k = v }] in a fresh property. *)
Definition when_truthy (v : value) : option value :=
  if truthy v then Some v else None.

(** The names [GHLApiClient.searchOpportunities] copies when truthy. *)
Definition copied_when_truthy : list string :=
  ["pipeline_id"; "pipeline_stage_id"; "contact_id"; "status"; "assigned_to";
   "campaignId"; "id"; "order"; "endDate"; "startAfter"; "startAfterId";
   "date"; "country"; "page"; "limit"].

(** The [searchParams] object [OpportunityTools.searchOpportunities] hands
    to the client when the query can be trimmed, on the configuration
    [cfg]. *)
Definition tool_search_params (cfg : ClientConfig) (params : value) : obj :=
  let pipelineId := get_opt params "pipelineId" in
  let pipelineStageId := get_opt params "pipelineStageId" in
  let contactId := get_opt params "contactId" in
  let status := get_opt params "status" in
  let assignedTo := get_opt params "assignedTo" in
  let searchParams0 : obj :=
    <["limit" := js_or (get_opt params "limit") (VNum 20)]>
      (<["location_id" := locationId cfg]> ∅) in
  assign_when (truthy assignedTo) "assigned_to" assignedTo
  (assign_when (truthy status) "status" status
  (assign_when (truthy contactId) "contact_id" contactId
  (assign_when (truthy pipelineStageId) "pipeline_stage_id" pipelineStageId
  (assign_when (truthy pipelineId) "pipeline_id" pipelineId
  (match trimmed_text (get_opt params "query") with
   | Some t => <["q" := t]> searchParams0
   | None => searchParams0
   end))))).

(** ** Further client methods: locations and conversations *)

(** Update location/sub-account: PUT /locations/{locationId} *)
Definition updateLocation (locationId updates : value) : M ApiResult :=
  try_catch
    (let* response := axios_put ("/locations/" +:+ to_string locationId) (JsonBody updates) ∅ in
     ret (wrapResponse (data response)))
    (fun error => throw (handleApiError error)).

(** Get conversation by ID: GET /conversations/{conversationId} *)
Definition getConversation (conversationId : value) : M ApiResult :=
  try_catch
    (let* headers := getConversationHeaders in
     let* response := axios_get ("/conversations/" +:+ to_string conversationId) None headers in
     ret (wrapResponse (data response)))
    (fun error => throw error).

(** Get messages from a conversation:
    GET /conversations/{conversationId}/messages *)
Definition getConversationMessages (conversationId options : value) : M ApiResult :=
  try_catch
    (let params : obj :=
       foldl (copy_truthy options) ∅ ["lastMessageId"; "limit"; "type"] in
     let* headers := getConversationHeaders in
     let* response :=
       axios_get ("/conversations/" +:+ to_string conversationId +:+ "/messages")
                 (Some params) headers in
     ret (wrapResponse (data response)))
    (fun error => throw error).

(** Send a new message (SMS, Email, etc.): POST /conversations/messages *)
Definition sendMessage (messageData : value) : M ApiResult :=
  try_catch
    (let* headers := getConversationHeaders in
     let* response := axios_post "/conversations/messages" (JsonBody messageData) headers in
     ret (wrapResponse (data response)))
    (fun error => throw error).

(** Send SMS message to a contact. *)
Definition sendSMS (contactId message fromNumber : value) : M ApiResult :=
  try_catch
    (let messageData : obj :=
       <["fromNumber" := fromNumber]>
       (<["message" := message]>
       (<["contactId" := contactId]>
       (<["type" := VStr "SMS"]> ∅))) in
     sendMessage (VObj messageData))
    (fun error => throw error).

(** Send Email message to a contact: the properties of [options] come
    last in the literal, over the named ones. *)
Definition sendEmail (contactId subject message html options : value) : M ApiResult :=
  try_catch
    (let messageData : obj :=
       spread options ∪
       (<["html" := html]>
       (<["message" := message]>
       (<["subject" := subject]>
       (<["contactId" := contactId]>
       (<["type" := VStr "Email"]> ∅))))) in
     sendMessage (VObj messageData))
    (fun error => throw error).

(** ** Further tool methods: locations and conversations *)

(** The engine's TypeError for [const { k, ...rest } = v] on [undefined]
    or [null]; [what] is the source text of [v]. *)
Definition destructure (what : string) (v : value) (k : string) : M (value * obj) :=
  match v with
  | VUndefined | VNull =>
      throw (Error ("Cannot destructure property '" +:+ k +:+ "' of '" +:+ what
                    +:+ "' as it is " +:+ to_string v +:+ "."))
  | _ => ret (get_opt v k, delete k (spread v))
  end.

(** [LocationTools.updateLocation] *)
Definition LocationTools_updateLocation (params : value) : M value :=
  try_catch
    (let* parts := destructure "params" params "locationId" in
     let locationId := fst parts in
     let updateData := snd parts in
     let* response := updateLocation locationId (VObj updateData) in
     if failed response
     then throw (Error ("API request failed: " +:+ error_message_or response "Unknown API error"))
     else
       ret (VObj (<["message" := VStr "Location updated successfully"]>
                 (<["location" := result_data response]>
                 (<["success" := VBool true]> ∅)))))
    (fun error => throw (Error ("Failed to update location: " +:+ exn_message error))).

(** [arr.map(f)]; [what] is the source text of [arr], which the engine
    prints when [map] is missing. *)
Fixpoint mapM {A B} (f : A -> M B) (l : list A) : M (list B) :=
  match l with
  | [] => ret []
  | x :: rest =>
      let* y := f x in
      let* ys := mapM f rest in
      ret (y :: ys)
  end.

Definition array_map (what : string) (f : value -> M value) (v : value) : M value :=
  match v with
  | VArr l => let* l' := mapM f l in ret (VArr l')
  | VUndefined | VNull => throw (type_error_read v "map")
  | _ => throw (Error (what +:+ ".map is not a function"))
  end.

(** [v?.join(sep)]; [what] is the source text of the callee. *)
Definition join_opt (what : string) (sep : string) (v : value) : M value :=
  match v with
  | VUndefined | VNull => ret VUndefined
  | VArr l => ret (VStr (array_join sep l))
  | _ => throw (Error (what +:+ " is not a function"))
  end.

(** [v === 'all' || v === 'unread'] *)
Definition is_all_or_unread (v : value) : bool :=
  match v with
  | VStr s => String.eqb s "all" || String.eqb s "unread"
  | _ => false
  end.

(** The summary [getRecentMessages] makes of one conversation. *)
Definition recent_summary (conv : value) : M value :=
  let* id := prop conv "id" in
  let* fullName := prop conv "fullName" in
  let* contactName := prop conv "contactName" in
  let* email := prop conv "email" in
  let* phone := prop conv "phone" in
  let* lastMessageBody := prop conv "lastMessageBody" in
  let* lastMessageType := prop conv "lastMessageType" in
  let* unreadCount := prop conv "unreadCount" in
  let* starred := prop conv "starred" in
  ret (VObj (<["starred" := starred]>
            (<["unreadCount" := unreadCount]>
            (<["lastMessageType" := lastMessageType]>
            (<["lastMessageBody" := lastMessageBody]>
            (<["contactPhone" := phone]>
            (<["contactEmail" := email]>
            (<["contactName" := js_or fullName contactName]>
            (<["conversationId" := id]> ∅))))))))).

Section ConversationTools.

(** The text a template literal makes of a caught error, [`${error}`]:
    the engine prints the name of the error before its message.  An
    [Exn] keeps no name, so the printer is a parameter. *)
Variable error_string : Exn -> string.

(** [ConversationTools.sendSMS] *)
Definition ConversationTools_sendSMS (params : value) : M value :=
  try_catch
    (let* contactId := prop params "contactId" in
     let* message := prop params "message" in
     let* fromNumber := prop params "fromNumber" in
     let* response := sendSMS contactId message fromNumber in
     let result := result_data response in
     let* messageId := prop result "messageId" in
     let* conversationId := prop result "conversationId" in
     ret (VObj (<["message" := VStr ("SMS sent successfully to contact "
                                      +:+ to_string contactId)]>
               (<["conversationId" := conversationId]>
               (<["messageId" := messageId]>
               (<["success" := VBool true]> ∅))))))
    (fun error => throw (Error ("Failed to send SMS: " +:+ error_string error))).

(** [ConversationTools.sendEmail] *)
Definition ConversationTools_sendEmail (params : value) : M value :=
  try_catch
    (let* contactId := prop params "contactId" in
     let* subject := prop params "subject" in
     let* message := prop params "message" in
     let* html := prop params "html" in
     let* emailFrom := prop params "emailFrom" in
     let* emailCc := prop params "emailCc" in
     let* emailBcc := prop params "emailBcc" in
     let* attachments := prop params "attachments" in
     let options : obj :=
       <["attachments" := attachments]>
       (<["emailBcc" := emailBcc]>
       (<["emailCc" := emailCc]>
       (<["emailFrom" := emailFrom]> ∅))) in
     let* response := sendEmail contactId subject message html (VObj options) in
     let result := result_data response in
     let* messageId := prop result "messageId" in
     let* conversationId := prop result "conversationId" in
     let* emailMessageId := prop result "emailMessageId" in
     ret (VObj (<["message" := VStr ("Email sent successfully to contact "
                                      +:+ to_string contactId)]>
               (<["emailMessageId" := emailMessageId]>
               (<["conversationId" := conversationId]>
               (<["messageId" := messageId]>
               (<["success" := VBool true]> ∅)))))))
    (fun error => throw (Error ("Failed to send email: " +:+ error_string error))).

(** [ConversationTools.getConversation]: the conversation first, then its
    messages. *)
Definition ConversationTools_getConversation (params : value) : M value :=
  try_catch
    (let* conversationId := prop params "conversationId" in
     let* conversationResponse := getConversation conversationId in
     let conversation := result_data conversationResponse in
     let* limit := prop params "limit" in
     let* messageTypes := prop params "messageTypes" in
     let* type := join_opt "params.messageTypes?.join" "," messageTypes in
     let options : obj := <["type" := type]> (<["limit" := js_or limit (VNum 20)]> ∅) in
     let* messagesResponse := getConversationMessages conversationId (VObj options) in
     let messagesData := result_data messagesResponse in
     let* messages := prop messagesData "messages" in
     let* nextPage := prop messagesData "nextPage" in
     let* len := prop messages "length" in
     ret (VObj (<["message" := VStr ("Retrieved conversation with " +:+ to_string len
                                      +:+ " messages")]>
               (<["hasMoreMessages" := nextPage]>
               (<["messages" := messages]>
               (<["conversation" := conversation]>
               (<["success" := VBool true]> ∅)))))))
    (fun error => throw (Error ("Failed to get conversation: " +:+ error_string error))).

(** [ConversationTools.getRecentMessages] *)
Definition ConversationTools_getRecentMessages (params : value) : M value :=
  try_catch
    (let* given := prop params "status" in
     let status := if is_all_or_unread given then given else VStr "unread" in
     let* cfg := getConfig in
     let* limit := prop params "limit" in
     let searchParams : obj :=
       <["sort" := VStr "desc"]>
       (<["sortBy" := VStr "last_message_date"]>
       (<["status" := status]>
       (<["limit" := js_or limit (VNum 10)]>
       (<["locationId" := locationId cfg]> ∅)))) in
     let* response := searchConversations (VObj searchParams) in
     let data := result_data response in
     let* conversations := prop data "conversations" in
     let* enhancedConversations :=
       array_map "data.conversations" recent_summary conversations in
     let* len := prop enhancedConversations "length" in
     ret (VObj (<["message" := VStr ("Retrieved " +:+ to_string len
                                      +:+ " recent conversations")]>
               (<["conversations" := enhancedConversations]>
               (<["success" := VBool true]> ∅)))))
    (fun error => throw (Error ("Failed to get recent messages: " +:+ error_string error))).

End ConversationTools.

(** ** Further vocabulary: the requests of the tools *)

(** The headers [getConversationHeaders] makes on the client [c]. *)
Definition conversation_headers (c : GHLApiClient) : obj :=
  <["Accept" := VStr "application/json"]>
  (<["Content-Type" := VStr "application/json"]>
  (<["Version" := VStr "2021-04-15"]>
  (<["Authorization" := VStr ("Bearer " +:+ to_string (accessToken (config c)))]> ∅))).

(** [v === s] for the text [s]. *)
Definition is_text (s : string) (v : value) : bool :=
  match v with
  | VStr t => String.eqb t s
  | _ => false
  end.

(** The remote accepts: it answers inside the 2xx range. *)
Definition accepted (r : Reply) : bool :=
  match r with
  | Answered resp => is_2xx (status resp)
  | NoAnswer _ => false
  end.

(** [v?.join(',')] can be evaluated: [v] is nullish or an array. *)
Definition joins (v : value) : bool :=
  match v with
  | VUndefined | VNull | VArr _ => true
  | _ => false
  end.

(** [v?.join(',')] when it can be evaluated. *)
Definition joined (v : value) : value :=
  match v with
  | VArr l => VStr (array_join "," l)
  | _ => VUndefined
  end.

(** The two requests of [ConversationTools.getConversation] for the
    arguments [params], on the client [c]. *)
Definition conversation_request (c : GHLApiClient) (params : value) : Request :=
  mkRequest "GET" ("/conversations/" +:+ to_string (get_opt params "conversationId"))
            None NoBody (conversation_headers c).

Definition messages_request (c : GHLApiClient) (params : value) : Request :=
  let type := joined (get_opt params "messageTypes") in
  mkRequest "GET"
    ("/conversations/" +:+ to_string (get_opt params "conversationId") +:+ "/messages")
    (Some (assign_when (truthy type) "type" type
             (<["limit" := js_or (get_opt params "limit") (VNum 20)]> ∅)))
    NoBody (conversation_headers c).

(** ** Further client methods: email and workflows *)

(** GET /emails/schedule: the caller's parameters over the configured
    location. *)
Definition getEmailCampaigns (params : value) : M ApiResult :=
  try_catch
    (let* cfg := this_config in
     let query : obj := spread params ∪ <["locationId" := locationId cfg]> ∅ in
     let* response := axios_get "/emails/schedule" (Some query) ∅ in
     ret (wrapResponse (data response)))
    (fun error => throw (handleApiError error)).

(** POST /emails/builder *)
Definition createEmailTemplate (params : value) : M ApiResult :=
  try_catch
    (let* cfg := this_config in
     let body : obj :=
       spread params ∪ (<["type" := VStr "html"]> (<["locationId" := locationId cfg]> ∅)) in
     let* response := axios_post "/emails/builder" (JsonBody (VObj body)) ∅ in
     ret (wrapResponse (data response)))
    (fun error => throw (handleApiError error)).

(** POST /emails/builder/data: [editorType] comes last in the literal. *)
Definition updateEmailTemplate (params : value) : M ApiResult :=
  try_catch
    (let* parts := destructure "params" params "templateId" in
     let templateId := fst parts in
     let rest := snd parts in
     let* cfg := this_config in
     let body : obj :=
       <["editorType" := VStr "html"]>
         (rest ∪ (<["templateId" := templateId]> (<["locationId" := locationId cfg]> ∅))) in
     let* response := axios_post "/emails/builder/data" (JsonBody (VObj body)) ∅ in
     ret (wrapResponse (data response)))
    (fun error => throw (handleApiError error)).

(** Get all workflows for a location: GET /workflows/ *)
Definition getWorkflows (request : value) : M ApiResult :=
  try_catch
    (let* cfg := this_config in
     let* loc := prop request "locationId" in
     let queryParams : obj := <["locationId" := js_or loc (locationId cfg)]> ∅ in
     let* response := axios_get "/workflows/" (Some queryParams) ∅ in
     ret (wrapResponse (data response)))
    (fun error => throw (handleApiError error)).

(** ** Further tool methods: email, workflows and verification *)

Section EmailTools.

(** The text a template literal makes of a caught error, as for the
    conversation tools. *)
Variable error_string : Exn -> string.

(** [EmailTools.getEmailCampaigns] *)
Definition EmailTools_getEmailCampaigns (params : value) : M value :=
  try_catch
    (let* response := getEmailCampaigns params in
     if failed response
     then throw (Error (error_message_or response "Failed to get email campaigns."))
     else
       let data := result_data response in
       let* schedules := prop data "schedules" in
       let* total := prop data "total" in
       let* len := prop schedules "length" in
       ret (VObj (<["message" := VStr ("Successfully retrieved " +:+ to_string len
                                        +:+ " email campaigns.")]>
                 (<["total" := total]>
                 (<["campaigns" := schedules]>
                 (<["success" := VBool true]> ∅))))))
    (fun error => throw (Error ("Failed to get email campaigns: " +:+ error_string error))).

(** [EmailTools.createEmailTemplate] *)
Definition EmailTools_createEmailTemplate (params : value) : M value :=
  try_catch
    (let* response := createEmailTemplate params in
     if failed response
     then throw (Error (error_message_or response "Failed to create email template."))
     else
       ret (VObj (<["message" := VStr "Successfully created email template."]>
                 (<["template" := result_data response]>
                 (<["success" := VBool true]> ∅)))))
    (fun error => throw (Error ("Failed to create email template: " +:+ error_string error))).

(** [EmailTools.updateEmailTemplate]: only [success] is tested. *)
Definition EmailTools_updateEmailTemplate (params : value) : M value :=
  try_catch
    (let* response := updateEmailTemplate params in
     if negb (success response)
     then throw (Error (error_message_or response "Failed to update email template."))
     else
       ret (VObj (<["message" := VStr "Successfully updated email template."]>
                 (<["success" := VBool true]> ∅))))
    (fun error => throw (Error ("Failed to update email template: " +:+ error_string error))).

End EmailTools.

(** The counters of the status histogram of
    [WorkflowTools.getWorkflows]: a number, or the text that [+ 1] makes
    of a property found on the prototype. *)
Inductive Counter : Type :=
  | Count (n : Z)
  | Text (s : string).

Definition counter_value (c : Counter) : value :=
  match c with
  | Count n => VNum n
  | Text s => VStr s
  end.

(** The property names every object literal inherits. *)
Definition inherited_names : list string :=
  ["constructor"; "__defineGetter__"; "__defineSetter__"; "hasOwnProperty";
   "__lookupGetter__"; "__lookupSetter__"; "isPrototypeOf"; "propertyIsEnumerable";
   "toString"; "valueOf"; "__proto__"; "toLocaleString"].

Section WorkflowTools.

(** [String(Object.prototype[k])] for an inherited name [k]: the text
    is the engine's. *)
Variable inherited_text : string -> string.

(** [acc[status] = (acc[status] || 0) + 1]: an own counter goes up by
    one; a name found on the prototype yields a text, which the
    assignment stores, except under [__proto__], where assigning a text
    changes nothing. *)
Definition count_step (acc : gmap string Counter) (status : value) : gmap string Counter :=
  let k := to_string status in
  match acc !! k with
  | Some (Count n) => <[k := Count (n + 1)]> acc
  | Some (Text s) =>
      <[k := if String.eqb s "" then Count 1 else Text (s +:+ "1")]> acc
  | None =>
      if String.eqb k "__proto__" then acc
      else if bool_decide (k ∈ inherited_names)
           then <[k := Text (inherited_text k +:+ "1")]> acc
           else <[k := Count 1]> acc
  end.

Fixpoint count_statuses (acc : gmap string Counter) (l : list value)
    : M (gmap string Counter) :=
  match l with
  | [] => ret acc
  | workflow :: rest =>
      let* status := prop workflow "status" in
      count_statuses (count_step acc status) rest
  end.

(** [workflows.reduce((acc, workflow) => ..., {})] *)
Definition workflow_statuses (workflows : value) : M value :=
  match workflows with
  | VArr l => let* acc := count_statuses ∅ l in ret (VObj (counter_value <$> acc))
  | VUndefined | VNull => throw (type_error_read workflows "reduce")
  | _ => throw (Error "result.data.workflows.reduce is not a function")
  end.

(** [WorkflowTools.getWorkflows] *)
Definition WorkflowTools_getWorkflows (params : value) : M value :=
  try_catch
    (let* loc := prop params "locationId" in
     let* result := getWorkflows (VObj (<["locationId" := js_or loc (VStr "")]> ∅)) in
     if failed result
     then throw (Error ("Failed to get workflows: "
                        +:+ error_message_or result "Unknown error"))
     else
       let data := result_data result in
       let* workflows := prop data "workflows" in
       let* len := prop workflows "length" in
       let* statuses := workflow_statuses workflows in
       ret (VObj (<["metadata" := VObj (<["workflowStatuses" := statuses]>
                                       (<["totalWorkflows" := len]> ∅))]>
                 (<["message" := VStr ("Successfully retrieved " +:+ to_string len
                                        +:+ " workflows")]>
                 (<["workflows" := workflows]>
                 (<["success" := VBool true]> ∅))))))
    (fun error => throw (Error ("Failed to get workflows: " +:+ exn_message error))).

End WorkflowTools.

Section EmailISVTools.

(** [ToNumber(s) > 0] for a text [s]: reading a text as a number is the
    engine's and outside the integers of the model. *)
Variable positive_text : string -> bool.

(** [v > 0] *)
Definition gt_zero (v : value) : bool :=
  match v with
  | VUndefined | VNull | VObj _ => false
  | VBool b => b
  | VNum n => 0 <? n
  | VStr s => positive_text s
  | VArr _ => positive_text (to_string v)
  end.

(** ['k' in v] for a name [k] that no prototype holds. *)
Definition has_property (k : string) (v : value) : M bool :=
  match v with
  | VObj o => ret (bool_decide (is_Some (o !! k)))
  | VArr _ => ret false
  | _ => throw (Error ("Cannot use 'in' operator to search for '" +:+ k +:+ "' in "
                       +:+ to_string v))
  end.

(** [v.join(sep)]; [what] is the source text of [v]. *)
Definition call_join (what : string) (sep : string) (v : value) : M string :=
  match v with
  | VArr l => ret (array_join sep l)
  | _ => throw (Error (what +:+ ".join is not a function"))
  end.

(** The message of a processed verification. *)
Definition verified_message (verifiedResult : value) : M string :=
  let* result := prop verifiedResult "result" in
  let* risk := prop verifiedResult "risk" in
  let message0 :=
    "Email verification completed. Result: " +:+ to_string result
    +:+ ", Risk: " +:+ to_string risk in
  let* reason := prop verifiedResult "reason" in
  let* message1 :=
    if truthy reason
    then
      let* len := prop reason "length" in
      if gt_zero len
      then let* reasons := call_join "verifiedResult.reason" ", " reason in
           ret (message0 +:+ ", Reasons: " +:+ reasons)
      else ret message0
    else ret message0 in
  let* recommendation := prop verifiedResult "leadconnectorRecomendation" in
  let isEmailValid := get_opt recommendation "isEmailValid" in
  if negb (is_undefined isEmailValid)
  then ret (message1 +:+ ", Recommended: "
            +:+ (if truthy isEmailValid then "Valid" else "Invalid"))
  else ret message1.

(** [EmailISVTools.verifyEmail]: a failure is reported in the result. *)
Definition EmailISVTools_verifyEmail (params : value) : M value :=
  try_catch
    (let* locationId := prop params "locationId" in
     let* type := prop params "type" in
     let* verify := prop params "verify" in
     let* result :=
       verifyEmail locationId (VObj (<["verify" := verify]> (<["type" := type]> ∅))) in
     if failed result
     then
       ret (VObj (<["message" := VStr (error_message_or result "Email verification failed")]>
                 (<["verification" :=
                      VObj (<["address" := verify]>
                           (<["message" := VStr "Verification failed"]>
                           (<["verified" := VBool false]> ∅)))]>
                 (<["success" := VBool false]> ∅))))
     else
       let verification := result_data result in
       let* isVerified := has_property "result" verification in
       let* message :=
         if isVerified : bool
         then verified_message verification
         else
           let* text := prop verification "message" in
           ret ("Email verification not processed: " +:+ to_string text) in
       ret (VObj (<["message" := VStr message]>
                 (<["verification" := verification]>
                 (<["success" := VBool true]> ∅)))))
    (fun error =>
       let errorMessage := exn_message error in
       let* address := prop params "verify" in
       ret (VObj (<["message" := VStr ("Failed to verify email: " +:+ errorMessage)]>
                 (<["verification" :=
                      VObj (<["address" := address]>
                           (<["message" := VStr errorMessage]>
                           (<["verified" := VBool false]> ∅)))]>
                 (<["success" := VBool false]> ∅))))).

End EmailISVTools.

(** ** Further vocabulary: workflows *)

(** The request of [WorkflowTools.getWorkflows] for the arguments
    [params], on the configuration [cfg]. *)
Definition workflows_request (cfg : ClientConfig) (params : value) : Request :=
  mkRequest "GET" "/workflows/"
    (Some (<["locationId" := js_or (get_opt params "locationId") (locationId cfg)]> ∅))
    NoBody ∅.

(** The name a workflow is counted under. *)
Definition status_of (workflow : value) : string :=
  to_string (get_opt workflow "status").

(** How many workflows of [l] are counted under [k]. *)
Fixpoint occurrences (k : string) (l : list value) : Z :=
  match l with
  | [] => 0
  | workflow :: rest =>
      (if String.eqb (status_of workflow) k then 1 else 0) + occurrences k rest
  end.

(** A workflow whose [status] can be read and is counted under a name
    that object literals do not inherit. *)
Definition countable (workflow : value) : bool :=
  match workflow with
  | VUndefined | VNull => false
  | _ => negb (bool_decide (status_of workflow ∈ inherited_names))
  end.

(** The sum of the numbers of a histogram. *)
Definition counted (c : Counter) : Z :=
  match c with
  | Count n => n
  | Text _ => 0
  end.

Definition total_count (acc : gmap string Counter) : Z :=
  map_fold (fun _ c s => counted c + s) 0 acc.

(** Every counter is a positive number. *)
Definition counts_only (acc : gmap string Counter) : Prop :=
  forall k c, acc !! k = Some c -> exists n, c = Count n /\ 0 < n.

(** The number [acc] holds under [k]. *)
Definition tally (acc : gmap string Counter) (k : string) : Z :=
  match acc !! k with
  | Some c => counted c
  | None => 0
  end.

(** ** Equations of the computations *)

Lemma bind_ret {A B} (a : A) (k : A -> M B) : bind (ret a) k = k a.
Proof. reflexivity. Qed.

Lemma bind_throw {A B} (e : Exn) (k : A -> M B) : bind (throw e) k = throw e.
Proof. reflexivity. Qed.

Lemma try_catch_ret {A} (a : A) (h : Exn -> M A) : try_catch (ret a) h = ret a.
Proof. reflexivity. Qed.

Lemma try_catch_throw {A} (e : Exn) (h : Exn -> M A) : try_catch (throw e) h = h e.
Proof. reflexivity. Qed.

Lemma try_catch_rethrow {A} (m : M A) (w : World) :
  try_catch m (fun error => throw error) w = m w.
Proof. unfold try_catch, throw. destruct (m w) as [[a|e] w']; reflexivity. Qed.

Lemma bind_assoc {A B C} (m : M A) (f : A -> M B) (g : B -> M C) (w : World) :
  bind (bind m f) g w = bind m (fun a => bind (f a) g) w.
Proof. unfold bind. destruct (m w) as [[a|e] w1]; reflexivity. Qed.

Lemma prop_obj (o : obj) (k : string) : prop (VObj o) k = ret (get_opt (VObj o) k).
Proof. reflexivity. Qed.

Lemma get_opt_obj (o : obj) (k : string) :
  get_opt (VObj o) k = default VUndefined (o !! k).
Proof. reflexivity. Qed.

Lemma this_config_run {B} (k : ClientConfig -> M B) (w : World) :
  bind this_config k w = k (config (ghlClient w)) w.
Proof. reflexivity. Qed.

(** What [axios_request] does on each kind of reply. *)
Lemma axios_request_ok (r : Request) (w : World) (resp : Response) :
  remote w (sent w) (outgoing w r) = Answered resp ->
  is_2xx (status resp) = true ->
  axios_request r w = (Returned resp, record_sent (outgoing w r) w).
Proof. intros Hr H2. unfold axios_request. cbv zeta. rewrite Hr, H2. reflexivity. Qed.

Lemma axios_request_bad_status (r : Request) (w : World) (resp : Response) :
  remote w (sent w) (outgoing w r) = Answered resp ->
  is_2xx (status resp) = false ->
  axios_request r w =
    (Thrown (handleApiError (bad_status_error resp)), record_sent (outgoing w r) w).
Proof. intros Hr H2. unfold axios_request. cbv zeta. rewrite Hr, H2. reflexivity. Qed.

Lemma axios_request_no_answer (r : Request) (w : World) (text : string) :
  remote w (sent w) (outgoing w r) = NoAnswer text ->
  axios_request r w =
    (Thrown (handleApiError (transport_error text)), record_sent (outgoing w r) w).
Proof. intros Hr. unfold axios_request. cbv zeta. rewrite Hr. reflexivity. Qed.

(** Under [http_fails] a request ends in the interceptor's error. *)
Lemma axios_request_fails (r : Request) (w : World) :
  http_fails w ->
  exists raw, axios_request r w =
    (Thrown (handleApiError raw), record_sent (outgoing w r) w).
Proof.
  intros Hf. specialize (Hf (outgoing w r)).
  destruct (remote w (sent w) (outgoing w r)) as [resp|text] eqn:Hr.
  - exists (bad_status_error resp). by apply axios_request_bad_status.
  - exists (transport_error text). by apply axios_request_no_answer.
Qed.

(** Every error made by [handleApiError] is a plain [Error]. *)
Lemma handleApiError_plain (e : Exn) : exn_response (handleApiError e) = None.
Proof. reflexivity. Qed.

(** A request leaves the world as [record_sent] describes it, whatever the
    reply. *)
Lemma axios_request_world (r : Request) (w : World) :
  snd (axios_request r w) = record_sent (outgoing w r) w.
Proof.
  unfold axios_request. cbv zeta.
  destruct (remote w (sent w) (outgoing w r)) as [resp|text]; [|reflexivity].
  destruct (is_2xx (status resp)); reflexivity.
Qed.

(** Everything thrown by a request has no response attached. *)
Lemma axios_request_thrown (r : Request) (w w' : World) (e : Exn) :
  axios_request r w = (Thrown e, w') -> exists raw, e = handleApiError raw.
Proof.
  unfold axios_request. cbv zeta.
  destruct (remote w (sent w) (outgoing w r)) as [resp|text].
  - destruct (is_2xx (status resp)); intros [= <- _]; eauto.
  - intros [= <- _]; eauto.
Qed.

(** ** Three properties of computations, proved by their structure *)

Create HintDb js_frame.

Section Structure.
Context {A B : Type}.

Lemma keeps_ret (a : A) : keeps_client (ret a).
Proof. intros w. reflexivity. Qed.

Lemma keeps_throw (e : Exn) : keeps_client (@throw A e).
Proof. intros w. reflexivity. Qed.

Lemma keeps_bind (m : M A) (k : A -> M B) :
  keeps_client m -> (forall a, keeps_client (k a)) -> keeps_client (bind m k).
Proof.
  intros Hm Hk w. unfold bind. specialize (Hm w).
  destruct (m w) as [[a|e] w1]; simpl in *; [|done].
  rewrite <- Hm. apply Hk.
Qed.

Lemma keeps_try_catch (m : M A) (h : Exn -> M A) :
  keeps_client m -> (forall e, keeps_client (h e)) -> keeps_client (try_catch m h).
Proof.
  intros Hm Hh w. unfold try_catch. specialize (Hm w).
  destruct (m w) as [[a|e] w1]; simpl in *; [done|].
  rewrite <- Hm. apply Hh.
Qed.

Lemma keeps_if (c : bool) (m1 m2 : M A) :
  keeps_client m1 -> keeps_client m2 -> keeps_client (if c then m1 else m2).
Proof. by destruct c. Qed.

Lemma plain_ret (a : A) : throws_plain (ret a).
Proof. intros w e w' [=]. Qed.

Lemma plain_throw (e : Exn) : exn_response e = None -> throws_plain (@throw A e).
Proof. intros He w e' w' [= <- _]. exact He. Qed.

Lemma plain_bind (m : M A) (k : A -> M B) :
  throws_plain m -> (forall a, throws_plain (k a)) -> throws_plain (bind m k).
Proof.
  intros Hm Hk w e w'. unfold bind.
  destruct (m w) as [[a|e1] w1] eqn:Hmw.
  - apply Hk.
  - intros [= <- _]. by eapply Hm.
Qed.

Lemma plain_try_catch (m : M A) (h : Exn -> M A) :
  (forall e, throws_plain (h e)) -> throws_plain (try_catch m h).
Proof.
  intros Hh w e w'. unfold try_catch.
  destruct (m w) as [[a|e1] w1]; [intros [=]|apply Hh].
Qed.

Lemma plain_if (c : bool) (m1 m2 : M A) :
  throws_plain m1 -> throws_plain m2 -> throws_plain (if c then m1 else m2).
Proof. by destruct c. Qed.

End Structure.

Lemma wraps_ret (d : value) : wraps (ret (wrapResponse d)).
Proof. intros w r w' [= <- _]. by exists d. Qed.

Lemma wraps_throw (e : Exn) : wraps (throw e).
Proof. intros w r w' [=]. Qed.

Lemma wraps_bind {A} (m : M A) (k : A -> M ApiResult) :
  (forall a, wraps (k a)) -> wraps (bind m k).
Proof.
  intros Hk w r w'. unfold bind.
  destruct (m w) as [[a|e] w1]; [apply Hk|intros [=]].
Qed.

Lemma wraps_try_catch (m : M ApiResult) (h : Exn -> M ApiResult) :
  wraps m -> (forall e, wraps (h e)) -> wraps (try_catch m h).
Proof.
  intros Hm Hh w r w'. unfold try_catch.
  destruct (m w) as [[a|e] w1] eqn:Hmw.
  - intros [= <- <-]. by eapply Hm.
  - apply Hh.
Qed.

Lemma keeps_this_config : keeps_client this_config.
Proof. intros w. reflexivity. Qed.

Lemma keeps_prop (v : value) (k : string) : keeps_client (prop v k).
Proof. unfold prop. destruct (get v k); [apply keeps_ret|apply keeps_throw]. Qed.

Lemma keeps_call_trim (what : string) (v : value) : keeps_client (call_trim what v).
Proof. destruct v; first [apply keeps_ret|apply keeps_throw]. Qed.

Lemma keeps_axios_request (r : Request) : keeps_client (axios_request r).
Proof. intros w. by rewrite axios_request_world. Qed.

Lemma plain_prop (v : value) (k : string) : throws_plain (prop v k).
Proof. unfold prop. destruct (get v k); [apply plain_ret|by apply plain_throw]. Qed.

Lemma plain_call_trim (what : string) (v : value) : throws_plain (call_trim what v).
Proof. destruct v; first [apply plain_ret|by apply plain_throw]. Qed.

Lemma plain_axios_request (r : Request) : throws_plain (axios_request r).
Proof. intros w e w' H. apply axios_request_thrown in H as [raw ->]. reflexivity. Qed.

Lemma plain_this_config : throws_plain this_config.
Proof. intros w e w' [=]. Qed.

#[local] Hint Resolve keeps_ret keeps_throw keeps_bind keeps_try_catch keeps_if
  keeps_this_config keeps_prop keeps_call_trim keeps_axios_request : js_frame.
#[local] Hint Resolve plain_ret plain_throw plain_bind plain_try_catch plain_if
  plain_prop plain_call_trim plain_axios_request plain_this_config
  handleApiError_plain : js_frame.
#[local] Hint Resolve wraps_ret wraps_throw wraps_bind wraps_try_catch : js_frame.

(** Closes a structural goal about a method by unfolding it down to the
    primitives above. *)
Ltac structural :=
  repeat first
    [ progress intros
    | progress auto with js_frame
    | simple apply keeps_try_catch | simple apply keeps_bind | simple apply keeps_if
    | simple apply plain_try_catch | simple apply plain_bind | simple apply plain_if
    | simple apply wraps_try_catch | simple apply wraps_bind
    | reflexivity ].

(** ** The client methods, structurally *)

Lemma keeps_assign_trimmed what v k o : keeps_client (assign_trimmed what v k o).
Proof. unfold assign_trimmed. structural. Qed.

Lemma keeps_set_filter_trimmed what v k st : keeps_client (set_filter_trimmed what v k st).
Proof. unfold set_filter_trimmed. structural. Qed.

Lemma keeps_contact_filters f payload : keeps_client (contact_filters f payload).
Proof. unfold contact_filters. pose proof keeps_set_filter_trimmed. structural. Qed.

Lemma keeps_getConversationHeaders : keeps_client getConversationHeaders.
Proof. unfold getConversationHeaders. structural. Qed.

Lemma keeps_getConfig : keeps_client getConfig.
Proof. unfold getConfig. structural. Qed.

Lemma plain_assign_trimmed what v k o : throws_plain (assign_trimmed what v k o).
Proof. unfold assign_trimmed. structural. Qed.

Lemma plain_set_filter_trimmed what v k st : throws_plain (set_filter_trimmed what v k st).
Proof. unfold set_filter_trimmed. structural. Qed.

Lemma plain_contact_filters f payload : throws_plain (contact_filters f payload).
Proof. unfold contact_filters. pose proof plain_set_filter_trimmed. structural. Qed.

#[local] Hint Resolve keeps_assign_trimmed keeps_contact_filters
  keeps_getConversationHeaders keeps_getConfig plain_assign_trimmed
  plain_contact_filters : js_frame.

Lemma keeps_searchContacts_payload cfg p : keeps_client (searchContacts_payload cfg p).
Proof. unfold searchContacts_payload. structural. Qed.

Lemma keeps_searchOpportunities_params cfg p : keeps_client (searchOpportunities_params cfg p).
Proof. unfold searchOpportunities_params. structural. Qed.

Lemma plain_searchContacts_payload cfg p : throws_plain (searchContacts_payload cfg p).
Proof. unfold searchContacts_payload. structural. Qed.

Lemma plain_searchOpportunities_params cfg p : throws_plain (searchOpportunities_params cfg p).
Proof. unfold searchOpportunities_params. structural. Qed.

#[local] Hint Resolve keeps_searchContacts_payload keeps_searchOpportunities_params
  plain_searchContacts_payload plain_searchOpportunities_params : js_frame.

Lemma keeps_createContact d : keeps_client (createContact d).
Proof. unfold createContact, axios_post. structural. Qed.

Lemma keeps_searchContacts p : keeps_client (searchContacts p).
Proof. unfold searchContacts, axios_post. structural. Qed.

Lemma keeps_searchConversations p : keeps_client (searchConversations p).
Proof. unfold searchConversations, axios_get. structural. Qed.

Lemma keeps_searchOpportunities p : keeps_client (searchOpportunities p).
Proof. unfold searchOpportunities, axios_get. structural. Qed.

Lemma keeps_getPipelines l : keeps_client (getPipelines l).
Proof. unfold getPipelines, axios_get. structural. Qed.

Lemma keeps_getOpportunity i : keeps_client (getOpportunity i).
Proof. unfold getOpportunity, axios_get. structural. Qed.

Lemma keeps_searchLocations p : keeps_client (searchLocations p).
Proof. unfold searchLocations, axios_get. structural. Qed.

Lemma keeps_getLocationTag l t : keeps_client (getLocationTag l t).
Proof. unfold getLocationTag, axios_get. structural. Qed.

Lemma keeps_uploadMediaFile d : keeps_client (uploadMediaFile d).
Proof. unfold uploadMediaFile, axios_post. structural. Qed.

Lemma keeps_verifyEmail l d : keeps_client (verifyEmail l d).
Proof. unfold verifyEmail. structural. Qed.

Lemma wraps_createContact d : wraps (createContact d).
Proof. unfold createContact. structural. Qed.

Lemma wraps_searchConversations p : wraps (searchConversations p).
Proof. unfold searchConversations. structural. Qed.

Lemma wraps_searchOpportunities p : wraps (searchOpportunities p).
Proof. unfold searchOpportunities. structural. Qed.

Lemma wraps_getPipelines l : wraps (getPipelines l).
Proof. unfold getPipelines. structural. Qed.

Lemma wraps_getOpportunity i : wraps (getOpportunity i).
Proof. unfold getOpportunity. structural. Qed.

Lemma wraps_searchLocations p : wraps (searchLocations p).
Proof. unfold searchLocations. structural. Qed.

Lemma wraps_getLocationTag l t : wraps (getLocationTag l t).
Proof. unfold getLocationTag. structural. Qed.

Lemma wraps_uploadMediaFile d : wraps (uploadMediaFile d).
Proof. unfold uploadMediaFile. structural. Qed.

(** ** The result envelope *)

Lemma wraps_always_successful (m : M ApiResult) : wraps m -> always_successful m.
Proof. intros Hm w r w' H. apply Hm in H as [d ->]. by split. Qed.



(** ** The configuration *)


(** ** The central error conversion *)

Lemma truthy_request_failed (st : Z) :
  truthy (VStr ("Request failed with status code " +:+ pretty st)) = true.
Proof. reflexivity. Qed.

Lemma response_status_nonzero (resp : Response) :
  status resp <> 0 -> response_status (bad_status_error resp) = status resp.
Proof.
  intros H. unfold response_status. simpl.
  destruct (Z.eqb_spec (status resp) 0); [done|reflexivity].
Qed.

(** The message [handleApiError] gives to the error of a response outside
    2xx. *)
Lemma handleApiError_bad_status (resp : Response) :
  status resp <> 0 ->
  exn_message (handleApiError (bad_status_error resp)) =
    "GHL API Error (" +:+ pretty (status resp) +:+ "): " +:+
    (if truthy (get_opt (data resp) "message")
     then message_text (get_opt (data resp) "message")
     else "Request failed with status code " +:+ pretty (status resp)).
Proof.
  intros H. unfold handleApiError. rewrite response_status_nonzero by done.
  cbn [exn_message Error response_data bad_status_error exn_response].
  destruct (truthy (get_opt (data resp) "message")) eqn:Ht.
  - destruct (get_opt (data resp) "message");
      unfold js_or; cbn [truthy] in *; rewrite ?Ht; try discriminate; reflexivity.
  - pose proof (truthy_request_failed (status resp)) as Hs.
    destruct (get_opt (data resp) "message");
      unfold js_or; cbn [truthy] in Ht |- *; try discriminate;
      rewrite ?Ht, ?Hs; reflexivity.
Qed.

(** The message [handleApiError] gives to a failure without response. *)
Lemma handleApiError_transport (text : string) :
  exn_message (handleApiError (transport_error text)) =
    "GHL API Error (500): " +:+ (if String.eqb text "" then "Unknown error" else text).
Proof.
  unfold handleApiError, js_or. simpl.
  destruct (String.eqb text ""); reflexivity.
Qed.




(** C4 (amended): a failure without HTTP response is converted by the
    central interceptor into a plain error, with no response attached,
    whose message is "GHL API Error (500): <text>": the missing status is
    reported as 500, and <text> is the transport's error text (or
    "Unknown error" when that is empty). *)
Theorem transport_failure_reported_as_500 (r : Request) (w : World) (text : string) :
  remote w (sent w) (outgoing w r) = NoAnswer text ->
  exists e,
    fst (axios_request r w) = Thrown e
    /\ exn_response e = None
    /\ exn_message e =
         "GHL API Error (500): " +:+ (if String.eqb text "" then "Unknown error" else text).
Proof.
  intros Hr. exists (handleApiError (transport_error text)).
  rewrite (axios_request_no_answer r w text Hr).
  repeat split. apply handleApiError_transport.
Qed.

(** The amended C4 at a timeout. *)
Lemma transport_failure_reported_as_500_witness :
  exists e,
    fst (axios_request (mkRequest "GET" "/locations/search" None NoBody ∅)
                       (world_of (down "timeout of 30000ms exceeded"))) = Thrown e
    /\ exn_response e = None
    /\ exn_message e = "GHL API Error (500): timeout of 30000ms exceeded".
Proof.
  exact (transport_failure_reported_as_500
           (mkRequest "GET" "/locations/search" None NoBody ∅)
           (world_of (down "timeout of 30000ms exceeded"))
           "timeout of 30000ms exceeded" eq_refl).
Defined.

(** C4, as stated, fails: the error made for a timeout reports the status
    500, and is the very error made for a remote 500 with that message. *)
Lemma transport_failure_carries_status_500 :
  exists e,
    fst (axios_request (mkRequest "GET" "/locations/search" None NoBody ∅)
                       (world_of (down "timeout of 30000ms exceeded"))) = Thrown e
    /\ reports_status e 500
    /\ fst (axios_request (mkRequest "GET" "/locations/search" None NoBody ∅)
              (world_of (answers
                 {| status := 500; statusText := "Internal Server Error";
                    data := VObj (<["message" := VStr "timeout of 30000ms exceeded"]> ∅) |})))
       = Thrown e.
Proof.
  eexists. split; [reflexivity|]. split; [|reflexivity].
  by exists "timeout of 30000ms exceeded".
Qed.

(** ** Dispatch *)

Section DispatchFacts.
Variable method : ToolModule -> string -> list value -> M value.

(** The labels of the dispatcher of each class are the names of its
    catalog, in the same order. *)
Lemma labels_are_catalog (m : ToolModule) :
  fst <$> cases_of method m = name <$> getToolDefinitions m.
Proof. destruct m; reflexivity. Qed.

Lemma switch_miss (cases : list Case) (default : M value) (toolName : string)
    (args : value) :
  toolName ∉ (fst <$> cases) -> switch cases default toolName args = default.
Proof.
  induction cases as [|[label body] rest IH]; intros Hn; [reflexivity|].
  cbn [switch]. destruct (String.eqb_spec toolName label) as [->|Hne].
  - exfalso. apply Hn. cbn. left.
  - apply IH. intros Hin. apply Hn. cbn. by right.
Qed.

Lemma switch_hit (cases : list Case) (default : M value) (toolName : string)
    (args : value) :
  toolName ∈ (fst <$> cases) ->
  exists body, (toolName, body) ∈ cases /\ switch cases default toolName args = body args.
Proof.
  induction cases as [|[label body] rest IH]; intros Hin.
  - by apply elem_of_nil in Hin.
  - cbn [switch]. destruct (String.eqb_spec toolName label) as [->|Hne].
    + exists body. split; [left|reflexivity].
    + cbn in Hin. apply elem_of_cons in Hin as [?|Hin]; [done|].
      destruct (IH Hin) as (b & Hb & Hs). exists b. split; [by right|done].
Qed.

Lemma executeTool_switch (m : ToolModule) (toolName : string) (args : value) (w : World) :
  executeTool method m toolName args w =
    switch (cases_of method m) (throw (Error (unknown_prefix m +:+ toolName)))
           toolName args w.
Proof.
  unfold executeTool. destruct (rethrows m); [apply try_catch_rethrow|reflexivity].
Qed.

End DispatchFacts.

(** C1: in every tool class, each name of the catalog labels a case of the
    dispatcher, which runs the body of that case; and a name outside the
    catalog makes the dispatcher throw an error whose message ends with
    that name, in an unchanged state: no request is sent, and no method of
    the class, embedded or not, is run. *)
Theorem catalog_names_are_dispatched
    (method : ToolModule -> string -> list value -> M value)
    (m : ToolModule) (toolName : string) (args : value) (w : World) :
  (toolName ∈ (name <$> getToolDefinitions m) ->
     exists body, (toolName, body) ∈ cases_of method m
                  /\ executeTool method m toolName args w = body args w)
  /\ (toolName ∉ (name <$> getToolDefinitions m) ->
        executeTool method m toolName args w
        = (Thrown (Error (unknown_prefix m +:+ toolName)), w)).
Proof.
  rewrite executeTool_switch, <- (labels_are_catalog method). split; intros H.
  - destruct (switch_hit _ (throw (Error (unknown_prefix m +:+ toolName)))
                         toolName args H) as (body & Hb & Hs).
    exists body. by rewrite Hs.
  - by rewrite switch_miss.
Qed.

(** C1 at a name no catalog lists. *)
Lemma catalog_names_are_dispatched_witness :
  executeTool no_method MediaTools "purge_media" (VObj ∅) (world_of (down "unreachable"))
  = (Thrown (Error "Unknown media tool: purge_media"), world_of (down "unreachable")).
Proof.
  refine (proj2 (catalog_names_are_dispatched no_method MediaTools "purge_media"
                   (VObj ∅) (world_of (down "unreachable"))) _).
  cbn. rewrite !elem_of_cons, elem_of_nil. intros [H|[H|[H|H]]]; done.
Defined.

(** ** Computations that send nothing *)

Section Silence.
Context {A B : Type}.

Lemma silent_ret (a : A) : silent (ret a).
Proof. intros w. reflexivity. Qed.

Lemma silent_throw (e : Exn) : silent (@throw A e).
Proof. intros w. reflexivity. Qed.

Lemma silent_bind (m : M A) (k : A -> M B) :
  silent m -> (forall a, silent (k a)) -> silent (bind m k).
Proof.
  intros Hm Hk w. unfold bind. specialize (Hm w).
  destruct (m w) as [[a|e] w1]; simpl in *; subst; [apply Hk|done].
Qed.

Lemma silent_if (c : bool) (m1 m2 : M A) :
  silent m1 -> silent m2 -> silent (if c then m1 else m2).
Proof. by destruct c. Qed.

(** Silent continuations and handlers do not move the state a
    computation has reached. *)
Lemma snd_bind_silent (m : M A) (k : A -> M B) (w : World) :
  (forall a, silent (k a)) -> snd (bind m k w) = snd (m w).
Proof.
  intros Hk. unfold bind. destruct (m w) as [[a|e] w1]; [apply Hk|done].
Qed.

Lemma snd_try_catch_silent (m : M A) (h : Exn -> M A) (w : World) :
  (forall e, silent (h e)) -> snd (try_catch m h w) = snd (m w).
Proof.
  intros Hh. unfold try_catch. destruct (m w) as [[a|e] w1]; [done|apply Hh].
Qed.

End Silence.

Lemma silent_prop (v : value) (k : string) : silent (prop v k).
Proof. unfold prop. destruct (get v k); [apply silent_ret|apply silent_throw]. Qed.

Lemma silent_this_config : silent this_config.
Proof. intros w. reflexivity. Qed.

Lemma silent_call_trim (what : string) (v : value) : silent (call_trim what v).
Proof. destruct v; first [apply silent_ret|apply silent_throw]. Qed.

#[local] Hint Resolve silent_ret silent_throw silent_bind silent_if silent_prop
  silent_this_config silent_call_trim : js_frame.

Lemma silent_getConfig : silent getConfig.
Proof. unfold getConfig. auto with js_frame. Qed.

Lemma silent_throw_when (c : bool) (msg : string) : silent (throw_when c msg).
Proof. unfold throw_when. auto with js_frame. Qed.

Lemma silent_assign_trimmed what v k o : silent (assign_trimmed what v k o).
Proof. unfold assign_trimmed. auto 10 with js_frame. Qed.

Lemma silent_set_filter_trimmed what v k st : silent (set_filter_trimmed what v k st).
Proof. unfold set_filter_trimmed. auto 10 with js_frame. Qed.

Lemma silent_contact_filters f payload : silent (contact_filters f payload).
Proof.
  unfold contact_filters. pose proof silent_set_filter_trimmed. auto 10 with js_frame.
Qed.

#[local] Hint Resolve silent_getConfig silent_throw_when silent_assign_trimmed
  silent_contact_filters : js_frame.

Lemma silent_searchContacts_payload cfg p : silent (searchContacts_payload cfg p).
Proof. unfold searchContacts_payload. auto 20 with js_frame. Qed.

Lemma silent_searchOpportunities_params cfg p : silent (searchOpportunities_params cfg p).
Proof. unfold searchOpportunities_params. auto 20 with js_frame. Qed.

#[local] Hint Resolve silent_searchContacts_payload silent_searchOpportunities_params
  : js_frame.

(** ** Strings *)

Lemma app_empty_r (s : string) : s +:+ "" = s.
Proof.
  induction s as [|a s IH]; [reflexivity|].
  change (String a (s +:+ "") = String a s). by rewrite IH.
Qed.

Lemma contains_prefix (p rest : string) : contains (p +:+ rest) p.
Proof. exists "", rest. reflexivity. Qed.

Lemma contains_suffix (p rest : string) : contains (p +:+ rest) rest.
Proof. exists p, "". by rewrite app_empty_r. Qed.

(** The message [handleApiError] gives to an error that carries no
    response: the status is reported as 500. *)
Lemma handleApiError_no_response (e : Exn) :
  exn_response e = None ->
  exn_message (handleApiError e) =
    "GHL API Error (500): " +:+
    (if String.eqb (exn_message e) "" then "Unknown error" else exn_message e).
Proof.
  intros He. unfold handleApiError, response_status, response_data, js_or.
  rewrite He. simpl. destruct (String.eqb (exn_message e) ""); reflexivity.
Qed.

(** Applied to one of its own errors, [handleApiError] wraps the message
    once more, under the status 500. *)
Lemma handleApiError_twice (e : Exn) :
  exn_message (handleApiError (handleApiError e)) =
    "GHL API Error (500): " +:+ exn_message (handleApiError e).
Proof. rewrite handleApiError_no_response by reflexivity. reflexivity. Qed.

(** ** The tool methods *)

Section ToolFacts.
Variable method : ToolModule -> string -> list value -> M value.

Lemma executeTool_upload_media_file (args : value) (w : World) :
  executeTool method MediaTools "upload_media_file" args w
  = MediaTools_uploadMediaFile args w.
Proof. rewrite executeTool_switch. reflexivity. Qed.

Lemma executeTool_search_locations (args : value) (w : World) :
  executeTool method LocationTools "search_locations" args w
  = LocationTools_searchLocations args w.
Proof. rewrite executeTool_switch. reflexivity. Qed.

Lemma executeTool_get_opportunity (args : value) (w : World) :
  executeTool method OpportunityTools "get_opportunity" args w
  = bind (prop args "opportunityId") OpportunityTools_getOpportunity w.
Proof. rewrite executeTool_switch. reflexivity. Qed.

End ToolFacts.

(** The two validation messages of [MediaTools.uploadMediaFile]. *)
Lemma uploadMediaFile_validation (o : obj) (w : World) :
  truthy (get_opt (VObj o) "file") = false ->
  truthy (get_opt (VObj o) "hosted") && truthy (get_opt (VObj o) "fileUrl") = false ->
  MediaTools_uploadMediaFile (VObj o) w =
    (Thrown (Error ("Failed to upload media file: " +:+
       (if truthy (get_opt (VObj o) "hosted")
        then "fileUrl is required when hosted=true"
        else "file is required when hosted=false or not specified"))), w).
Proof.
  intros Hfile Hboth. unfold MediaTools_uploadMediaFile.
  rewrite !prop_obj, !bind_ret. unfold throw_when.
  destruct (truthy (get_opt (VObj o) "hosted")) eqn:Hh;
    destruct (truthy (get_opt (VObj o) "fileUrl")) eqn:Hu;
    try discriminate Hboth; cbn [andb negb].
  - reflexivity.
  - rewrite !bind_ret, Hfile. reflexivity.
  - rewrite !bind_ret, Hfile. reflexivity.
Qed.

(** C5: when the arguments supply neither a [file] nor both [hosted] and
    [fileUrl], the tool [upload_media_file] throws an error that says which
    parameter is missing, and the state is unchanged: no request has been
    sent. *)
Theorem upload_without_source_throws_before_any_request
    (method : ToolModule -> string -> list value -> M value) (o : obj) (w : World) :
  truthy (get_opt (VObj o) "file") = false ->
  truthy (get_opt (VObj o) "hosted") && truthy (get_opt (VObj o) "fileUrl") = false ->
  exists msg,
    executeTool method MediaTools "upload_media_file" (VObj o) w
    = (Thrown (Error ("Failed to upload media file: " +:+ msg)), w)
    /\ (msg = "fileUrl is required when hosted=true"
        \/ msg = "file is required when hosted=false or not specified").
Proof.
  intros Hfile Hboth. rewrite executeTool_upload_media_file.
  rewrite (uploadMediaFile_validation o w Hfile Hboth).
  destruct (truthy (get_opt (VObj o) "hosted")); eexists; split; eauto.
Qed.

(** C5 at arguments that hold nothing but a [name]. *)
Lemma upload_without_source_throws_before_any_request_witness :
  exists msg,
    executeTool no_method MediaTools "upload_media_file"
      (VObj (<["name" := VStr "logo.png"]> ∅)) (world_of (answers (ok VNull)))
    = (Thrown (Error ("Failed to upload media file: " +:+ msg)),
       world_of (answers (ok VNull)))
    /\ (msg = "fileUrl is required when hosted=true"
        \/ msg = "file is required when hosted=false or not specified").
Proof.
  exact (upload_without_source_throws_before_any_request no_method
           (<["name" := VStr "logo.png"]> ∅) (world_of (answers (ok VNull)))
           eq_refl eq_refl).
Defined.

(** The request of [GHLApiClient.searchLocations] on an object. *)
Lemma searchLocations_request (o : obj) (w : World) :
  let companyId := get_opt (VObj o) "companyId" in
  let email := get_opt (VObj o) "email" in
  let q :=
    spread_when email "email" email
    (spread_when companyId "companyId" companyId
    (<["order" := js_or (get_opt (VObj o) "order") (VStr "asc")]>
    (<["limit" := js_or (get_opt (VObj o) "limit") (VNum 10)]>
    (<["skip" := js_or (get_opt (VObj o) "skip") (VNum 0)]> ∅)))) in
  snd (searchLocations (VObj o) w)
  = record_sent (outgoing w (mkRequest "GET" "/locations/search" (Some q) NoBody ∅)) w.
Proof.
  cbv zeta. unfold searchLocations.
  rewrite snd_try_catch_silent by auto with js_frame.
  rewrite !prop_obj, !bind_ret.
  rewrite snd_bind_silent by auto with js_frame.
  apply axios_request_world.
Qed.

Lemma LocationTools_searchLocations_world (params : value) (w : World) :
  snd (LocationTools_searchLocations params w) = snd (searchLocations params w).
Proof.
  unfold LocationTools_searchLocations.
  rewrite snd_try_catch_silent by auto with js_frame.
  apply snd_bind_silent. intros r. auto 10 with js_frame.
Qed.

Lemma lookup_spread_when_ne (c : value) (k k' : string) (v : value) (o : obj) :
  k <> k' -> spread_when c k v o !! k' = o !! k'.
Proof. intros H. unfold spread_when. destruct (truthy c); [by rewrite lookup_insert_ne|done]. Qed.



(** What [OpportunityTools.getOpportunity] throws when the request for
    the opportunity meets a response outside 2xx: the interceptor's error,
    converted once more by the client method, under the action prefix. *)
Lemma getOpportunity_bad_status (w : World) (resp : Response) :
  remote w (sent w) (outgoing w get_opportunity_x) = Answered resp ->
  is_2xx (status resp) = false ->
  fst (OpportunityTools_getOpportunity (VStr "x") w)
  = Thrown (Error ("Failed to get opportunity: GHL API Error (500): " +:+
                   exn_message (handleApiError (bad_status_error resp)))).
Proof.
  intros Hr H2.
  unfold OpportunityTools_getOpportunity, getOpportunity, axios_get, try_catch, bind.
  change ("/opportunities/" +:+ to_string (VStr "x")) with "/opportunities/x".
  fold get_opportunity_x.
  rewrite (axios_request_bad_status _ w resp Hr H2).
  unfold throw. cbn [fst]. by rewrite handleApiError_twice.
Qed.



(** The message of that run, in full. *)
Lemma get_opportunity_404_message_text :
  fst (executeTool no_method OpportunityTools "get_opportunity"
         (VObj (<["opportunityId" := VStr "x"]> ∅)) (world_of (answers not_found)))
  = Thrown (Error
      "Failed to get opportunity: GHL API Error (500): GHL API Error (404): Opportunity not found").
Proof. reflexivity. Qed.

(** ** The search methods under an HTTP-layer failure *)

Lemma meets_failure_request {A} (r : Request) (k : Response -> M A) :
  meets_failure (bind (axios_request r) k).
Proof.
  intros w Hf. destruct (axios_request_fails r w Hf) as [raw Hr].
  unfold bind. rewrite Hr. eauto.
Qed.

Lemma meets_failure_after_silent {A B} (m : M A) (k : A -> M B) :
  silent m -> (forall a, meets_failure (k a)) -> meets_failure (bind m k).
Proof.
  intros Hm Hk w Hf. unfold bind. specialize (Hm w).
  destruct (m w) as [[a|e] w1]; simpl in Hm; subst w1; [by apply Hk|eauto].
Qed.

Lemma searchContacts_body_meets_failure (p : value) :
  meets_failure
    (let* cfg := this_config in
     let* payload := searchContacts_payload cfg p in
     let* response := axios_post "/contacts/search" (JsonBody (VObj payload)) ∅ in
     ret (wrapResponse (data response))).
Proof.
  apply meets_failure_after_silent; [auto with js_frame|intros cfg].
  apply meets_failure_after_silent; [auto with js_frame|intros payload].
  apply meets_failure_request.
Qed.

Lemma searchContacts_body_plain (p : value) :
  throws_plain
    (let* cfg := this_config in
     let* payload := searchContacts_payload cfg p in
     let* response := axios_post "/contacts/search" (JsonBody (VObj payload)) ∅ in
     ret (wrapResponse (data response))).
Proof. unfold axios_post. structural. Qed.

(** [searchContacts] never throws; when every request fails it returns a
    failure result, whose status code is 500 and whose details are
    undefined whatever the remote answered, because the error it catches
    is the interceptor's, which carries no response. *)
Lemma searchContacts_returns_failure (p : value) (w : World) :
  http_fails w ->
  exists e x,
    fst (searchContacts p w)
    = Returned {| success := false; result_data := VUndefined; error := Some e |}
    /\ message e = exn_message (handleApiError x)
    /\ statusCode e = 500 /\ details e = VUndefined.
Proof.
  intros Hf. unfold searchContacts, try_catch.
  destruct (searchContacts_body_meets_failure p w Hf) as (x & w' & Hx).
  pose proof (searchContacts_body_plain p w x w' Hx) as Hp.
  rewrite Hx. eexists _, x. split; [reflexivity|]. cbn.
  unfold response_status, response_data. rewrite Hp. done.
Qed.

Lemma searchOpportunities_throws (p : value) (w : World) :
  http_fails w -> exists x, fst (searchOpportunities p w) = Thrown (handleApiError x).
Proof.
  intros Hf. unfold searchOpportunities, try_catch.
  assert (meets_failure
            (let* cfg := this_config in
             let* params := searchOpportunities_params cfg p in
             let* response := axios_get "/opportunities/search" (Some params) ∅ in
             ret (wrapResponse (data response)))) as Hm.
  { apply meets_failure_after_silent; [auto with js_frame|intros cfg].
    apply meets_failure_after_silent; [auto with js_frame|intros params].
    apply meets_failure_request. }
  destruct (Hm w Hf) as (x & w' & Hx). rewrite Hx. by exists x.
Qed.

Lemma searchConversations_throws (o : obj) (w : World) :
  http_fails w -> exists raw, fst (searchConversations (VObj o) w) = Thrown (handleApiError raw).
Proof.
  intros Hf. unfold searchConversations, getConversationHeaders.
  rewrite prop_obj. unfold try_catch, bind, this_config, ret, axios_get.
  match goal with |- context [axios_request ?r w] =>
    destruct (axios_request_fails r w Hf) as [raw ->] end.
  by exists raw.
Qed.

Lemma searchLocations_throws (o : obj) (w : World) :
  http_fails w ->
  exists raw, fst (searchLocations (VObj o) w) = Thrown (handleApiError (handleApiError raw)).
Proof.
  intros Hf. unfold searchLocations. rewrite !prop_obj, !bind_ret.
  unfold try_catch, bind, axios_get.
  match goal with |- context [axios_request ?r w] =>
    destruct (axios_request_fails r w Hf) as [raw ->] end.
  by exists raw.
Qed.

(** C3 (amended): under an HTTP-layer failure, [searchContacts] catches
    the error inside the method and returns
    [{success: false, error: {message, statusCode, details}}], while
    [searchOpportunities], [searchConversations] and [searchLocations]
    throw: the first and the last what [handleApiError] makes of the
    error they catch, the second the intercepted error itself. *)
Theorem search_methods_on_http_failure (o : obj) (w : World) :
  http_fails w ->
  (exists e x,
     fst (searchContacts (VObj o) w)
     = Returned {| success := false; result_data := VUndefined; error := Some e |}
     /\ message e = exn_message (handleApiError x)
     /\ statusCode e = 500 /\ details e = VUndefined)
  /\ (exists x, fst (searchOpportunities (VObj o) w) = Thrown (handleApiError x))
  /\ (exists raw, fst (searchConversations (VObj o) w) = Thrown (handleApiError raw))
  /\ (exists raw,
        fst (searchLocations (VObj o) w) = Thrown (handleApiError (handleApiError raw))).
Proof.
  intros Hf. split; [|split; [|split]].
  - by apply searchContacts_returns_failure.
  - by apply searchOpportunities_throws.
  - by apply searchConversations_throws.
  - by apply searchLocations_throws.
Qed.

(** The amended C3 against a remote that answers 503. *)
Lemma search_methods_on_http_failure_witness :
  (exists e x,
     fst (searchContacts (VObj ∅) (world_of (answers unavailable)))
     = Returned {| success := false; result_data := VUndefined; error := Some e |}
     /\ message e = exn_message (handleApiError x)
     /\ statusCode e = 500 /\ details e = VUndefined)
  /\ (exists x, fst (searchOpportunities (VObj ∅) (world_of (answers unavailable)))
                = Thrown (handleApiError x))
  /\ (exists raw, fst (searchConversations (VObj ∅) (world_of (answers unavailable)))
                  = Thrown (handleApiError raw))
  /\ (exists raw, fst (searchLocations (VObj ∅) (world_of (answers unavailable)))
                  = Thrown (handleApiError (handleApiError raw))).
Proof.
  exact (search_methods_on_http_failure ∅ (world_of (answers unavailable))
           (fun r => eq_refl)).
Defined.

(** C3, as stated, fails: against a remote that answers 503, three of the
    four search methods throw. *)
Lemma search_methods_throw :
  fst (searchLocations (VObj ∅) (world_of (answers unavailable)))
  = Thrown (Error "GHL API Error (500): GHL API Error (503): Service Unavailable")
  /\ fst (searchOpportunities (VObj ∅) (world_of (answers unavailable)))
     = Thrown (Error "GHL API Error (500): GHL API Error (503): Service Unavailable")
  /\ fst (searchConversations (VObj ∅) (world_of (answers unavailable)))
     = Thrown (Error "GHL API Error (503): Service Unavailable")
  /\ fst (searchContacts (VObj ∅) (world_of (answers unavailable)))
     = Returned {| success := false; result_data := VUndefined;
                   error := Some {| message :=
                     "GHL API Error (500): GHL API Error (503): Service Unavailable";
                     statusCode := 500; details := VUndefined |} |}.
Proof. repeat split. Qed.

(** ** Scoping by location *)

Lemma yields_ret {A} (a : A) (Q : A -> Prop) : Q a -> yields (ret a) Q.
Proof. intros H w a' w' [= <- _]. exact H. Qed.

Lemma yields_throw {A} (e : Exn) (Q : A -> Prop) : yields (throw e) Q.
Proof. intros w a w' [=]. Qed.

Lemma yields_bind {A B} (m : M A) (k : A -> M B) (P : A -> Prop) (Q : B -> Prop) :
  yields m P -> (forall a, P a -> yields (k a) Q) -> yields (bind m k) Q.
Proof.
  intros Hm Hk w b w'. unfold bind.
  destruct (m w) as [[a|e] w1] eqn:E; [|intros [=]].
  apply Hk. by eapply Hm.
Qed.

Lemma yields_prop_obj (o : obj) (k : string) :
  yields (prop (VObj o) k) (fun v => v = get_opt (VObj o) k).
Proof. rewrite prop_obj. by apply yields_ret. Qed.

Lemma lookup_assign_when_ne (c : bool) (k k' : string) (v : value) (o : obj) :
  k <> k' -> assign_when c k v o !! k' = o !! k'.
Proof. intros H. unfold assign_when. destruct c; [by rewrite lookup_insert_ne|done]. Qed.

(** The helpers that add optional parameters touch no other key. *)
Lemma yields_assign_trimmed what v k (o : obj) :
  yields (assign_trimmed what v k o) (fun o' : obj => forall k', k <> k' -> o' !! k' = o !! k').
Proof.
  unfold assign_trimmed. destruct (truthy v); [|by apply yields_ret].
  destruct v; cbn [call_trim]; try apply yields_throw.
  rewrite bind_ret. apply yields_ret. intros k' Hk. by apply lookup_assign_when_ne.
Qed.

Lemma yields_contact_filters f (payload : obj) :
  yields (contact_filters f payload)
         (fun p : obj => forall k', "filters" <> k' -> p !! k' = payload !! k').
Proof.
  unfold contact_filters.
  eapply yields_bind with (P := fun _ => True); [done|intros st1 _].
  eapply yields_bind with (P := fun _ => True); [done|intros st2 _].
  apply yields_ret. intros k' Hk. by apply lookup_assign_when_ne.
Qed.

Lemma lookup_copy_truthy_ne src (o : obj) (k k' : string) :
  k <> k' -> copy_truthy src o k !! k' = o !! k'.
Proof. intros H. unfold copy_truthy. by apply lookup_assign_when_ne. Qed.

Lemma lookup_copy_defined_ne src (o : obj) (k k' : string) :
  k <> k' -> copy_defined src o k !! k' = o !! k'.
Proof.
  intros H. unfold copy_defined.
  destruct (get_opt src k); try done; by rewrite lookup_insert_ne.
Qed.

Lemma lookup_foldl_ne (f : obj -> string -> obj) (keys : list string) (o : obj) (k' : string) :
  (forall o k, k <> k' -> f o k !! k' = o !! k') ->
  k' ∉ keys -> foldl f o keys !! k' = o !! k'.
Proof.
  intros Hf. revert o. induction keys as [|k keys IH]; intros o Hn; [done|].
  apply not_elem_of_cons in Hn as [Hne Hn]. cbn [foldl].
  rewrite IH by done. apply Hf. congruence.
Qed.

Lemma yields_searchContacts_payload cfg (o : obj) :
  yields (searchContacts_payload cfg (VObj o))
         (fun p : obj => p !! "locationId"
                  = Some (js_or (get_opt (VObj o) "locationId") (locationId cfg))).
Proof.
  unfold searchContacts_payload. rewrite !prop_obj, !bind_ret.
  eapply yields_bind; [apply yields_assign_trimmed|intros p1 H1; cbn beta in H1].
  rewrite !bind_ret.
  eapply yields_bind; [apply yields_assign_trimmed|intros p2 H2; cbn beta in H2].
  rewrite !bind_ret.
  assert (forall c k v, k <> "locationId" ->
            assign_when c k v p2 !! "locationId"
            = Some (js_or (get_opt (VObj o) "locationId") (locationId cfg))) as H3.
  { intros c k v Hk. rewrite lookup_assign_when_ne, H2, H1 by done.
    rewrite lookup_insert_ne by done. apply lookup_insert_eq. }
  destruct (truthy (get_opt (VObj o) "filters")).
  - intros w p w' Hp. apply yields_contact_filters in Hp. rewrite Hp by done. by apply H3.
  - apply yields_ret. by apply H3.
Qed.

Lemma yields_searchOpportunities_params cfg (o : obj) :
  yields (searchOpportunities_params cfg (VObj o))
         (fun p : obj => p !! "location_id"
                  = Some (js_or (get_opt (VObj o) "location_id") (locationId cfg))).
Proof.
  unfold searchOpportunities_params. rewrite !prop_obj, !bind_ret.
  eapply yields_bind; [apply yields_assign_trimmed|intros p1 H1; cbn beta in H1].
  apply yields_ret.
  rewrite lookup_foldl_ne;
    [|intros; by apply lookup_copy_defined_ne
     |rewrite !not_elem_of_cons; repeat split; try done; apply not_elem_of_nil].
  rewrite lookup_foldl_ne;
    [|intros; by apply lookup_copy_truthy_ne
     |rewrite !not_elem_of_cons; repeat split; try done; apply not_elem_of_nil].
  rewrite H1 by done. apply lookup_insert_eq.
Qed.

Lemma scoped_location_js_or (supplied expected : value) (cfg : ClientConfig) :
  scoped_location supplied cfg expected -> js_or supplied (locationId cfg) = expected.
Proof. intros [->|H]; unfold js_or; [reflexivity|by rewrite H]. Qed.

(** A request followed by silent steps leaves exactly that request behind. *)
Lemma one_scoped_request {A} (r : Request) (k : Response -> M A) (w : World)
    (key : string) (expected : value) :
  (forall resp, silent (k resp)) ->
  request_field key r = Some expected ->
  one_scoped key expected w (snd (bind (axios_request r) k w)).
Proof.
  intros Hk Hr. rewrite snd_bind_silent, axios_request_world by done.
  by exists (outgoing w r).
Qed.

Lemma createContact_scoped (o : obj) (w : World) :
  one_scoped "locationId"
    (js_or (get_opt (VObj o) "locationId") (locationId (config (ghlClient w))))
    w (snd (createContact (VObj o) w)).
Proof.
  unfold createContact. rewrite snd_try_catch_silent by auto with js_frame.
  rewrite this_config_run, prop_obj, bind_ret.
  apply one_scoped_request; [auto with js_frame|]. apply lookup_insert_eq.
Qed.

Lemma searchConversations_scoped (o : obj) (w : World) :
  one_scoped "locationId"
    (js_or (get_opt (VObj o) "locationId") (locationId (config (ghlClient w))))
    w (snd (searchConversations (VObj o) w)).
Proof.
  unfold searchConversations, getConversationHeaders.
  rewrite snd_try_catch_silent by auto with js_frame.
  rewrite this_config_run, prop_obj, bind_ret, bind_assoc, this_config_run, bind_ret.
  apply one_scoped_request; [auto with js_frame|]. apply lookup_insert_eq.
Qed.

Lemma getPipelines_scoped (supplied : value) (w : World) :
  one_scoped "locationId" (js_or supplied (locationId (config (ghlClient w))))
    w (snd (getPipelines supplied w)).
Proof.
  unfold getPipelines. rewrite snd_try_catch_silent by auto with js_frame.
  rewrite this_config_run.
  apply one_scoped_request; [auto with js_frame|]. apply lookup_insert_eq.
Qed.

(** A silent builder followed by one request on what it built. *)
Lemma at_most_one_scoped_built {A} (build : M obj) (send : obj -> Request)
    (k : Response -> M A) (w : World) (key : string) (expected : value) :
  silent build ->
  yields build (fun p => request_field key (send p) = Some expected) ->
  (forall resp, silent (k resp)) ->
  at_most_one_scoped key expected w
    (snd (bind build (fun p => bind (axios_request (send p)) k) w)).
Proof.
  intros Hs Hy Hk. unfold bind at 1. pose proof (Hs w) as Hw.
  destruct (build w) as [[p|e] w1] eqn:E; simpl in Hw; subst w1.
  - right. apply one_scoped_request; [done|]. by eapply Hy.
  - by left.
Qed.

Lemma searchContacts_scoped (o : obj) (w : World) :
  at_most_one_scoped "locationId"
    (js_or (get_opt (VObj o) "locationId") (locationId (config (ghlClient w))))
    w (snd (searchContacts (VObj o) w)).
Proof.
  unfold searchContacts. rewrite snd_try_catch_silent by auto with js_frame.
  rewrite this_config_run.
  apply (at_most_one_scoped_built _
           (fun p => mkRequest "POST" "/contacts/search" None (JsonBody (VObj p)) ∅));
    [auto with js_frame|apply yields_searchContacts_payload|auto with js_frame].
Qed.

Lemma searchOpportunities_scoped (o : obj) (w : World) :
  at_most_one_scoped "location_id"
    (js_or (get_opt (VObj o) "location_id") (locationId (config (ghlClient w))))
    w (snd (searchOpportunities (VObj o) w)).
Proof.
  unfold searchOpportunities. rewrite snd_try_catch_silent by auto with js_frame.
  rewrite this_config_run.
  apply (at_most_one_scoped_built _
           (fun p => mkRequest "GET" "/opportunities/search" (Some p) NoBody ∅));
    [auto with js_frame|apply yields_searchOpportunities_params|auto with js_frame].
Qed.

Lemma verifyEmail_scoped (loc verificationData : value) (w : World) :
  one_scoped "locationId" loc w (snd (verifyEmail loc verificationData w)).
Proof.
  unfold verifyEmail. rewrite snd_try_catch_silent by auto with js_frame.
  apply one_scoped_request; [auto with js_frame|]. apply lookup_insert_eq.
Qed.




(** A location given as the empty string counts as left out: the default
    is sent. *)
Lemma empty_location_falls_back :
  one_scoped "locationId" (VStr "loc_default") (world_of (answers (ok (VObj ∅))))
    (snd (createContact (VObj (<["locationId" := VStr ""]> ∅))
            (world_of (answers (ok (VObj ∅)))))).
Proof. apply createContact_scoped. Qed.

(** ** Runs of the embedding on success paths *)

Example search_locations_run :
  fst (executeTool no_method LocationTools "search_locations"
         (VObj (<["limit" := VNum 2]> ∅))
         (world_of (answers (ok (VObj (<["locations" :=
            VArr [VObj (<["id" := VStr "a"]> ∅); VObj (<["id" := VStr "b"]> ∅)]]> ∅))))))
  = Returned (VObj (<["message" := VStr "Found 2 locations"]>
                   (<["locations" :=
                      VArr [VObj (<["id" := VStr "a"]> ∅); VObj (<["id" := VStr "b"]> ∅)]]>
                   (<["success" := VBool true]> ∅)))).
Proof. reflexivity. Qed.

Example upload_hosted_run :
  sent (snd (executeTool no_method MediaTools "upload_media_file"
               (VObj (<["fileUrl" := VStr "https://cdn.example.com/logo.png"]>
                     (<["hosted" := VBool true]> ∅)))
               (world_of (answers (ok (VObj (<["fileId" := VStr "f1"]> ∅)))))))
  = [ {| req_method := "POST"; req_url := "/medias/upload-file"; req_params := None;
         req_body := FormBody [("hosted", VStr "true");
                               ("fileUrl", VStr "https://cdn.example.com/logo.png")];
         req_headers :=
           <["Content-Type" := VStr "multipart/form-data"]>
             (defaults_headers (new_GHLApiClient sample_config)) |} ].
Proof. reflexivity. Qed.

Example search_contacts_run :
  sent (snd (searchContacts
               (VObj (<["filters" := VObj (<["email" := VStr " ada@example.com "]> ∅)]>
                     (<["query" := VStr "  ada "]> ∅)))
               (world_of (answers (ok (VObj ∅))))))
  = [ {| req_method := "POST"; req_url := "/contacts/search"; req_params := None;
         req_body := JsonBody (VObj
           (<["filters" := VObj (<["email" := VStr "ada@example.com"]> ∅)]>
           (<["query" := VStr "ada"]>
           (<["pageLimit" := VNum 25]>
           (<["locationId" := VStr "loc_default"]> ∅)))));
         req_headers := defaults_headers (new_GHLApiClient sample_config) |} ].
Proof. reflexivity. Qed.

Example update_token_run :
  defaults_headers
    (ghlClient (snd (updateAccessToken (VStr "token-2") (world_of (down "offline")))))
  !! "Authorization" = Some (VStr "Bearer token-2").
Proof. reflexivity. Qed.

(** ** What the client methods throw *)

(** A [catch] block that converts a plain error with [handleApiError]
    throws an error that reports the status 500. *)
Lemma converted_reports_500 {A} (m : M A) (w w' : World) (e : Exn) :
  throws_plain m ->
  try_catch m (fun error => throw (handleApiError error)) w = (Thrown e, w') ->
  reports_status e 500.
Proof.
  intros Hp. unfold try_catch, throw.
  destruct (m w) as [[a|x] w1] eqn:Hm; [intros [=]|intros [= <- _]].
  eexists. rewrite handleApiError_no_response by (by eapply Hp). reflexivity.
Qed.

(** X1: [searchContacts] never throws: whatever its argument (an object or
    not) and whatever the remote does, it returns a result. *)
Theorem searchContacts_never_throws (searchParams : value) (w : World) :
  exists r, fst (searchContacts searchParams w) = Returned r
            /\ (success r = false -> exists e, error r = Some e /\ statusCode e = 500).
Proof.
  unfold searchContacts, try_catch.
  match goal with |- context [match ?m w with _ => _ end] =>
    pose proof (searchContacts_body_plain searchParams w) as Hp;
    destruct (m w) as [[a|x] w1] eqn:Hm end.
  - exists a. split; [reflexivity|].
    intros Hs. exfalso.
    assert (wraps (let* cfg := this_config in
                   let* payload := searchContacts_payload cfg searchParams in
                   let* response := axios_post "/contacts/search" (JsonBody (VObj payload)) ∅ in
                   ret (wrapResponse (data response)))) as Hw by structural.
    destruct (Hw w a w1 Hm) as [d ->]. discriminate.
  - eexists. split; [reflexivity|]. intros _. eexists. split; [reflexivity|].
    cbn. unfold response_status. by rewrite (Hp x w1 eq_refl).
Qed.

(** X2: a client method whose [catch] block converts the caught error with
    [handleApiError] reports the status 500 in everything it throws, also
    when the remote answered with another status: the interceptor has
    already replaced the HTTP error by a plain one. *)
Theorem converting_methods_report_500 (c : ClientCall) (w : World) (e : Exn) :
  converts_on_catch c = true ->
  thrown_by c w = Some e ->
  reports_status e 500.
Proof.
  intros Hc.
  assert (forall A (r : Result A * World), thrown (fst r) = Some e -> r = (Thrown e, snd r)) as Hr.
  { intros A [[a|x] w1]; cbn; [discriminate|by intros [= ->]]. }
  destruct c; try discriminate Hc; cbn [thrown_by]; intros H; apply Hr in H;
    revert H; [unfold searchOpportunities|unfold getPipelines|unfold getOpportunity
              |unfold searchLocations|unfold getLocationTag|unfold uploadMediaFile
              |unfold verifyEmail];
    apply converted_reports_500; unfold axios_get, axios_post; structural.
Qed.

(** X2 at a 404 on [getPipelines]. *)
Lemma converting_methods_report_500_witness :
  exists e,
    thrown_by (GetPipelines VUndefined) (world_of (answers not_found)) = Some e
    /\ exn_message e = "GHL API Error (500): GHL API Error (404): Opportunity not found"
    /\ reports_status e 500.
Proof.
  eexists. split; [reflexivity|]. split; [reflexivity|].
  exact (converting_methods_report_500 (GetPipelines VUndefined)
           (world_of (answers not_found)) _ eq_refl eq_refl).
Defined.

(** ** The headers of the requests *)

Section Sending.
Context {A B : Type}.
Variable P : Request -> Prop.
Variable c : GHLApiClient.

Lemma sends_silent (m : M A) : silent m -> sends P c m.
Proof.
  intros Hm w Hw. pose proof (Hm w) as ->. split; [done|]. exists [].
  split; [by rewrite app_nil_r|constructor].
Qed.

Lemma sends_bind (m : M A) (k : A -> M B) :
  sends P c m -> (forall a, sends P c (k a)) -> sends P c (bind m k).
Proof.
  intros Hm Hk w Hw. unfold bind. destruct (Hm w Hw) as (Hc & l & Hl & HP).
  destruct (m w) as [[a|e] w1]; cbn [snd] in *.
  - destruct (Hk a w1 Hc) as (Hc' & l' & Hl' & HP'). split; [done|].
    exists (l ++ l'). rewrite Hl', Hl, app_assoc. split; [done|]. by apply Forall_app.
  - split; [done|]. by exists l.
Qed.

Lemma sends_try_catch (m : M A) (h : Exn -> M A) :
  sends P c m -> (forall e, sends P c (h e)) -> sends P c (try_catch m h).
Proof.
  intros Hm Hh w Hw. unfold try_catch. destruct (Hm w Hw) as (Hc & l & Hl & HP).
  destruct (m w) as [[a|e] w1]; cbn [snd] in *.
  - split; [done|]. by exists l.
  - destruct (Hh e w1 Hc) as (Hc' & l' & Hl' & HP'). split; [done|].
    exists (l ++ l'). rewrite Hl', Hl, app_assoc. split; [done|]. by apply Forall_app.
Qed.

Lemma sends_if (b : bool) (m1 m2 : M A) :
  sends P c m1 -> sends P c m2 -> sends P c (if b then m1 else m2).
Proof. by destruct b. Qed.

(** The configuration a method reads is the one of the client it runs on. *)
Lemma sends_this_config (k : ClientConfig -> M B) :
  sends P c (k (config c)) -> sends P c (bind this_config k).
Proof. intros Hk w Hw. rewrite this_config_run, Hw. by apply Hk. Qed.

End Sending.

Lemma sends_request (P : Request -> Prop) (c : GHLApiClient) (r : Request) :
  (forall w, ghlClient w = c -> P (outgoing w r)) -> sends P c (axios_request r).
Proof.
  intros Hr w Hw. rewrite axios_request_world. split; [done|].
  exists [outgoing w r]. split; [done|]. apply Forall_singleton. by apply Hr.
Qed.

Lemma header_of_outgoing (w : World) (r : Request) (k : string) :
  req_headers (outgoing w r) !! k
  = match req_headers r !! k with
    | Some v => Some v
    | None => defaults_headers (ghlClient w) !! k
    end.
Proof.
  cbn [outgoing req_headers]. rewrite lookup_union.
  destruct (req_headers r !! k), (defaults_headers (ghlClient w) !! k); reflexivity.
Qed.

(** The headers [getConversationHeaders] makes on the client [c]. *)
Lemma sends_getConversationHeaders {B} (P : Request -> Prop) (c : GHLApiClient)
    (k : obj -> M B) :
  (forall h : obj,
     h !! "Authorization" = Some (VStr ("Bearer " +:+ to_string (accessToken (config c)))) ->
     h !! "Version" = Some (VStr "2021-04-15") ->
     sends P c (k h)) ->
  sends P c (bind getConversationHeaders k).
Proof.
  intros Hk w Hw. unfold getConversationHeaders.
  rewrite bind_assoc, this_config_run, bind_ret, Hw. by apply Hk.
Qed.

(** Walks a method down to its requests, leaving one goal for each. *)
Ltac sending :=
  repeat first
    [ progress intros
    | solve [apply sends_silent; auto 20 with js_frame]
    | simple apply sends_try_catch
    | simple apply sends_this_config
    | simple apply sends_getConversationHeaders
    | simple apply sends_bind
    | simple apply sends_if
    | simple apply sends_request ].

Section Headers.
Variable c : GHLApiClient.
Variable k : string.
Variable v : value.
(** The header is a default of the client, and no method sets it beside
    the content type. *)
Hypothesis Hdefault : defaults_headers c !! k = Some v.
Hypothesis Hk : k <> "Content-Type".

Lemma carries_default (w : World) (r : Request) :
  ghlClient w = c -> req_headers r !! k = None -> carries k v (outgoing w r).
Proof. intros Hw Hr. unfold carries. by rewrite header_of_outgoing, Hr, Hw. Qed.

Lemma carries_over_content_type (w : World) (r : Request) (ct : value) :
  ghlClient w = c -> req_headers r = <["Content-Type" := ct]> ∅ ->
  carries k v (outgoing w r).
Proof.
  intros Hw Hr. apply carries_default; [done|].
  rewrite Hr, lookup_insert_ne by done. apply lookup_empty.
Qed.

Lemma carries_conversation (w : World) (r : Request) :
  conversation_headers_agree c k v ->
  ghlClient w = c ->
  req_headers r !! "Authorization"
    = Some (VStr ("Bearer " +:+ to_string (accessToken (config c)))) ->
  req_headers r !! "Version" = Some (VStr "2021-04-15") ->
  carries k v (outgoing w r).
Proof.
  intros Hconv Hw Ha Hv. unfold carries. rewrite header_of_outgoing.
  by rewrite (Hconv _ Ha Hv).
Qed.

Ltac header_leaf :=
  first [ apply carries_default; [done|apply lookup_empty]
        | eapply carries_over_content_type; [done|reflexivity]
        | apply carries_conversation; auto; done ].

Lemma sends_header_perform (call : ClientCall) (w : World) :
  ghlClient w = c ->
  (forall t, call <> UpdateAccessToken t) ->
  (is_conversation_call call = true -> conversation_headers_agree c k v) ->
  exists l, sent (perform call w) = sent w ++ l /\ Forall (carries k v) l.
Proof.
  intros Hw Hcall Hconv.
  assert (forall A (m : M A), sends (carries k v) c m ->
            exists l, sent (snd (m w)) = sent w ++ l /\ Forall (carries k v) l) as Hs.
  { intros A m Hm. destruct (Hm w Hw) as (_ & l & Hl). by exists l. }
  destruct call; cbn [perform]; apply Hs.
  - unfold createContact, axios_post. sending. header_leaf.
  - unfold searchContacts, axios_post. sending. header_leaf.
  - unfold searchConversations, axios_get. sending. header_leaf.
  - unfold searchOpportunities, axios_get. sending. header_leaf.
  - unfold getPipelines, axios_get. sending. header_leaf.
  - unfold getOpportunity, axios_get. sending. header_leaf.
  - unfold searchLocations, axios_get. sending. header_leaf.
  - unfold getLocationTag, axios_get. sending. header_leaf.
  - unfold uploadMediaFile, axios_post. sending. header_leaf.
  - unfold verifyEmail. sending. header_leaf.
  - sending.
  - by destruct (Hcall newToken).
Qed.

End Headers.

Lemma update_or_other_call (call : ClientCall) :
  (exists t, call = UpdateAccessToken t) \/ (forall t, call <> UpdateAccessToken t).
Proof. destruct call; first [left; by eexists|right; discriminate]. Qed.

(** X3: after [updateAccessToken t], every request that a later client
    call sends carries the header Authorization: Bearer [t], whether it
    goes out with the default headers or with the conversation headers. *)
Theorem requests_carry_the_updated_token (t : value) (call : ClientCall) (w : World) :
  exists l,
    sent (perform call (snd (updateAccessToken t w))) = sent w ++ l
    /\ Forall (carries "Authorization" (VStr ("Bearer " +:+ to_string t))) l.
Proof.
  destruct (update_or_other_call call) as [[t' ->]|Hn].
  - exists []. split; [by rewrite app_nil_r|constructor].
  - destruct (sends_header_perform (ghlClient (snd (updateAccessToken t w)))
                "Authorization" (VStr ("Bearer " +:+ to_string t))
                (lookup_insert_eq _ _ _) ltac:(done) call
                (snd (updateAccessToken t w)) eq_refl Hn) as (l & Hl & HP).
    + intros _ h Ha _. exact Ha.
    + exists l. split; [exact Hl|exact HP].
Qed.


(** ** Failures and requests of the embedded tool methods *)

Lemma thrown_try_catch_prefix {A} (m : M A) (prefix : string) (w w' : World) (e : Exn) :
  try_catch m (fun error => throw (Error (prefix +:+ exn_message error))) w = (Thrown e, w') ->
  exists x w1, m w = (Thrown x, w1) /\ e = Error (prefix +:+ exn_message x).
Proof.
  unfold try_catch, throw. destruct (m w) as [[a|x] w1]; [intros [=]|intros [= <- _]].
  by exists x, w1.
Qed.

Lemma thrown_bind {A B} (m : M A) (k : A -> M B) (w w' : World) (e : Exn) :
  bind m k w = (Thrown e, w') ->
  m w = (Thrown e, w') \/ exists a w1, m w = (Returned a, w1) /\ k a w1 = (Thrown e, w').
Proof.
  unfold bind. destruct (m w) as [[a|x] w1]; intros H.
  - right. by exists a, w1.
  - left. by injection H as -> ->.
Qed.

(** Reading a property of a truthy value never throws. *)
Lemma prop_truthy (v : value) (k : string) :
  truthy v = true -> prop v k = ret (get_opt v k).
Proof. by destruct v. Qed.



(** The request [GHLApiClient.uploadMediaFile] sends for a form. *)
Lemma uploadMediaFile_sends (o : obj) (w : World) :
  let d := VObj o in
  (truthy (get_opt d "hosted") && truthy (get_opt d "fileUrl")) || truthy (get_opt d "file")
  = true ->
  snd (uploadMediaFile d w)
  = record_sent
      (outgoing w
         (mkRequest "POST" "/medias/upload-file" None
            (FormBody
               (append_when (truthy (get_opt d "parentId")) "parentId" (get_opt d "parentId")
                  (append_when (truthy (get_opt d "name")) "name" (get_opt d "name")
                     (if truthy (get_opt d "hosted") && truthy (get_opt d "fileUrl")
                      then [("hosted", VStr "true"); ("fileUrl", get_opt d "fileUrl")]
                      else [("hosted", VStr "false"); ("file", get_opt d "file")]))))
            (<["Content-Type" := VStr "multipart/form-data"]> ∅))) w.
Proof.
  cbv zeta. intros H. unfold uploadMediaFile.
  rewrite snd_try_catch_silent by auto with js_frame.
  rewrite !prop_obj, !bind_ret.
  destruct (truthy (get_opt (VObj o) "hosted") && truthy (get_opt (VObj o) "fileUrl")) eqn:E.
  - rewrite !bind_ret. rewrite snd_bind_silent by auto with js_frame.
    apply axios_request_world.
  - cbn [orb] in H. rewrite H, !bind_ret. rewrite snd_bind_silent by auto with js_frame.
    apply axios_request_world.
Qed.

(** A key copied under [...(v && { k: v })] reads back as [v] when [v] is
    truthy and as [undefined] otherwise. *)
Lemma get_opt_spread_when (k : string) (v : value) (o : obj) :
  o !! k = None ->
  get_opt (VObj (spread_when v k v o)) k = (if truthy v then v else VUndefined).
Proof.
  intros H. rewrite get_opt_obj. unfold spread_when.
  destruct (truthy v); [by rewrite lookup_insert_eq|by rewrite H].
Qed.

Lemma tool_upload_data_fields (cfg : ClientConfig) (o : obj) :
  let u := VObj (tool_upload_data cfg (VObj o)) in
  let keep k := if truthy (get_opt (VObj o) k) then get_opt (VObj o) k else VUndefined in
  get_opt u "hosted" = get_opt (VObj o) "hosted"
  /\ get_opt u "fileUrl" = keep "fileUrl"
  /\ get_opt u "file" = keep "file"
  /\ get_opt u "name" = keep "name"
  /\ get_opt u "parentId" = keep "parentId".
Proof.
  cbv zeta. unfold tool_upload_data.
  repeat split.
  - rewrite get_opt_obj, !lookup_spread_when_ne by done.
    unfold spread_when. cbn [truthy].
    destruct (get_opt (VObj o) "hosted") eqn:E; cbn [is_undefined negb];
      rewrite ?lookup_insert_eq, ?lookup_insert_ne by done; reflexivity.
  - rewrite get_opt_obj, !lookup_spread_when_ne by done. rewrite <- get_opt_obj.
    apply get_opt_spread_when.
    rewrite lookup_spread_when_ne, !lookup_insert_ne by done. apply lookup_empty.
  - rewrite get_opt_obj, !lookup_spread_when_ne by done. rewrite <- get_opt_obj.
    apply get_opt_spread_when.
    rewrite !lookup_spread_when_ne, !lookup_insert_ne by done. apply lookup_empty.
  - rewrite get_opt_obj, !lookup_spread_when_ne by done. rewrite <- get_opt_obj.
    apply get_opt_spread_when.
    rewrite !lookup_spread_when_ne, !lookup_insert_ne by done. apply lookup_empty.
  - apply get_opt_spread_when.
    rewrite !lookup_spread_when_ne, !lookup_insert_ne by done. apply lookup_empty.
Qed.

(** For accepted arguments the tool leaves the state its client call
    leaves. *)
Lemma MediaTools_uploadMediaFile_world (o : obj) (w : World) :
  upload_rejected (VObj o) = false ->
  snd (MediaTools_uploadMediaFile (VObj o) w)
  = snd (uploadMediaFile (VObj (tool_upload_data (config (ghlClient w)) (VObj o))) w).
Proof.
  unfold upload_rejected. cbv zeta. intros H.
  apply orb_false_elim in H as [H1 H2].
  unfold MediaTools_uploadMediaFile.
  rewrite snd_try_catch_silent by auto with js_frame.
  rewrite !prop_obj, !bind_ret. unfold throw_when.
  rewrite H1, bind_ret, H2, bind_ret.
  assert (forall B (k : value -> M B),
            bind (if truthy (get_opt (VObj o) "altId") then ret (get_opt (VObj o) "altId")
                  else let* cfg := getConfig in ret (locationId cfg)) k w
            = k (js_or (get_opt (VObj o) "altId") (locationId (config (ghlClient w)))) w)
    as ->.
  { intros B k. unfold js_or. by destruct (truthy (get_opt (VObj o) "altId")). }
  rewrite !bind_ret.
  rewrite snd_bind_silent by (intros r; auto 10 with js_frame). reflexivity.
Qed.


Lemma catalogs_are_disjoint (m1 m2 : ToolModule) :
  m1 <> m2 ->
  forallb (fun n => negb (bool_decide (n ∈ (name <$> getToolDefinitions m2))))
          (name <$> getToolDefinitions m1) = true.
Proof. destruct m1, m2; intros H; try (by destruct H); vm_compute; reflexivity. Qed.

(** X7: no tool name is declared twice, within a catalog or across the
    catalogs of the eight classes: a name determines the class that
    handles it. *)
Theorem tool_names_are_unique :
  NoDup all_tool_names
  /\ (forall m1 m2 toolName,
        toolName ∈ (name <$> getToolDefinitions m1) ->
        toolName ∈ (name <$> getToolDefinitions m2) -> m1 = m2).
Proof.
  split; [apply (bool_decide_unpack _); vm_compute; reflexivity|].
  intros m1 m2 toolName H1 H2.
  assert ({m1 = m2} + {m1 <> m2}) as [|Hne]
    by (destruct m1, m2; first [by left|by right]); [done|exfalso].
  pose proof (catalogs_are_disjoint m1 m2 Hne) as Hd.
  rewrite forallb_forall in Hd. apply list_elem_of_In in H1.
  specialize (Hd _ H1). apply negb_true_iff, bool_decide_eq_false in Hd. done.
Qed.

(** ** The opportunity tools *)

Lemma silent_OpportunityTools_searchParams cfg p : silent (OpportunityTools_searchParams cfg p).
Proof. unfold OpportunityTools_searchParams. auto 20 with js_frame. Qed.

Lemma getConfig_run {B} (k : ClientConfig -> M B) (w : World) :
  bind getConfig k w
  = k {| baseUrl := baseUrl (config (ghlClient w));
         accessToken := accessToken (config (ghlClient w));
         version := version (config (ghlClient w));
         locationId := locationId (config (ghlClient w)) |} w.
Proof. reflexivity. Qed.

Lemma js_or_same (v : value) : js_or v v = v.
Proof. unfold js_or. by destruct (truthy v). Qed.

Lemma yields_OpportunityTools_searchParams cfg (o : obj) :
  yields (OpportunityTools_searchParams cfg (VObj o))
         (fun sp : obj => sp !! "location_id" = Some (locationId cfg)).
Proof.
  unfold OpportunityTools_searchParams. rewrite !prop_obj, !bind_ret.
  eapply yields_bind; [apply yields_assign_trimmed|intros p1 H1; cbn beta in H1].
  rewrite !bind_ret. apply yields_ret.
  rewrite !lookup_assign_when_ne, H1 by done.
  rewrite lookup_insert_ne by done. apply lookup_insert_eq.
Qed.

Lemma createOpportunity_scoped (o : obj) (w : World) :
  one_scoped "locationId"
    (js_or (get_opt (VObj o) "locationId") (locationId (config (ghlClient w))))
    w (snd (createOpportunity (VObj o) w)).
Proof.
  unfold createOpportunity. rewrite snd_try_catch_silent by auto with js_frame.
  rewrite this_config_run, prop_obj, bind_ret.
  apply one_scoped_request; [auto with js_frame|]. apply lookup_insert_eq.
Qed.

Lemma upsertOpportunity_scoped (o : obj) (w : World) :
  one_scoped "locationId"
    (js_or (get_opt (VObj o) "locationId") (locationId (config (ghlClient w))))
    w (snd (upsertOpportunity (VObj o) w)).
Proof.
  unfold upsertOpportunity. rewrite snd_try_catch_silent by auto with js_frame.
  rewrite this_config_run, prop_obj, bind_ret.
  apply one_scoped_request; [auto with js_frame|]. apply lookup_insert_eq.
Qed.

(** X8: the opportunity tools always scope by the configured location:
    whatever the argument object holds (also a location of its own), the
    request of [create_opportunity] and of [upsert_opportunity] carries the
    configured [locationId], and so does the request of
    [search_opportunities] when one is sent. *)
Theorem opportunity_tools_use_the_configured_location (o : obj) (w : World) :
  at_most_one_scoped "location_id" (locationId (config (ghlClient w))) w
    (snd (OpportunityTools_searchOpportunities (VObj o) w))
  /\ one_scoped "locationId" (locationId (config (ghlClient w))) w
       (snd (OpportunityTools_createOpportunity (VObj o) w))
  /\ one_scoped "locationId" (locationId (config (ghlClient w))) w
       (snd (OpportunityTools_upsertOpportunity (VObj o) w)).
Proof.
  split; [|split].
  - unfold OpportunityTools_searchOpportunities.
    rewrite snd_try_catch_silent by auto with js_frame.
    rewrite getConfig_run.
    unfold bind at 1. set (cfg := {| baseUrl := _ |}). pose proof (silent_OpportunityTools_searchParams cfg (VObj o) w) as Hs.
    pose proof (yields_OpportunityTools_searchParams cfg o w) as Hy.
    destruct (OpportunityTools_searchParams cfg (VObj o) w) as [[sp|e] w1];
      cbn [snd] in Hs; subst w1; [|by left].
    rewrite snd_bind_silent by (intros r; auto 10 with js_frame).
    pose proof (searchOpportunities_scoped sp w) as H.
    rewrite get_opt_obj, (Hy sp w eq_refl) in H. cbn [default] in H.
    by rewrite js_or_same in H.
  - unfold OpportunityTools_createOpportunity.
    rewrite snd_try_catch_silent by auto with js_frame.
    rewrite getConfig_run.
    rewrite !prop_obj, !bind_ret.
    rewrite snd_bind_silent by (intros r; auto 10 with js_frame).
    match goal with |- context [createOpportunity (VObj ?d) w] =>
      pose proof (createOpportunity_scoped d w) as H;
      rewrite get_opt_obj in H; unfold with_configured_location in H;
      rewrite !lookup_insert_ne, lookup_insert_eq in H by done end.
    cbn [default] in H. by rewrite js_or_same in H.
  - unfold OpportunityTools_upsertOpportunity.
    rewrite snd_try_catch_silent by auto with js_frame.
    rewrite getConfig_run.
    rewrite !prop_obj, !bind_ret.
    rewrite snd_bind_silent by (intros r; auto 10 with js_frame).
    match goal with |- context [upsertOpportunity (VObj ?d) w] =>
      pose proof (upsertOpportunity_scoped d w) as H;
      rewrite get_opt_obj in H; unfold with_configured_location in H;
      rewrite !lookup_insert_ne, lookup_insert_eq in H by done end.
    cbn [default] in H. by rewrite js_or_same in H.
Qed.

(** ** Trimming twice *)

Lemma trim_left_clean (s : string) : starts_clean (trim_left s).
Proof.
  induction s as [|a s IH]; [done|]. cbn [trim_left].
  by destruct (is_space a) eqn:E.
Qed.

Lemma trim_left_of_clean (s : string) : starts_clean s -> trim_left s = s.
Proof. destruct s as [|a s]; [done|]. cbn. by intros ->. Qed.

Lemma append_assoc (s1 s2 s3 : string) : (s1 +:+ s2) +:+ s3 = s1 +:+ (s2 +:+ s3).
Proof.
  induction s1 as [|a s1 IH]; [done|].
  change (String a ((s1 +:+ s2) +:+ s3) = String a (s1 +:+ (s2 +:+ s3))). by rewrite IH.
Qed.

Lemma rev_app_append (s1 s2 : string) :
  String.rev_app s1 s2 = String.rev s1 +:+ s2.
Proof.
  unfold String.rev. revert s2.
  induction s1 as [|a s1 IH]; intros s2; [done|]. cbn [String.rev_app].
  rewrite IH, (IH (String a "")). by rewrite append_assoc.
Qed.

Lemma rev_String (a : Ascii.ascii) (s : string) :
  String.rev (String a s) = String.rev s +:+ String a "".
Proof. unfold String.rev at 1. cbn [String.rev_app]. apply rev_app_append. Qed.

Lemma rev_append (s1 s2 : string) :
  String.rev (s1 +:+ s2) = String.rev s2 +:+ String.rev s1.
Proof.
  induction s1 as [|a s1 IH].
  - change ("" +:+ s2) with s2. change (String.rev "") with "".
    by rewrite app_empty_r.
  - change (String a s1 +:+ s2) with (String a (s1 +:+ s2)).
    rewrite !rev_String, IH. by rewrite append_assoc.
Qed.

Lemma rev_involutive (s : string) : String.rev (String.rev s) = s.
Proof.
  induction s as [|a s IH]; [done|].
  rewrite rev_String, rev_append, IH. done.
Qed.

(** What [trim_left] removes is a prefix. *)
Lemma trim_left_suffix (s : string) : exists p, s = p +:+ trim_left s.
Proof.
  induction s as [|a s [p IH]]; [by exists ""|]. cbn [trim_left].
  destruct (is_space a); [|by exists ""].
  exists (String a p). change (String a s = String a (p +:+ trim_left s)). by f_equal.
Qed.

Lemma starts_clean_append (s t : string) :
  s <> "" -> starts_clean (s +:+ t) -> starts_clean s.
Proof. by destruct s. Qed.

Lemma rev_empty (s : string) : String.rev s = "" -> s = "".
Proof. intros H. by rewrite <- (rev_involutive s), H. Qed.

(** [trim] changes nothing in a string it has made. *)
Lemma trim_idempotent (s : string) : trim (trim s) = trim s.
Proof.
  unfold trim. set (a := trim_left s). set (b := trim_left (String.rev a)).
  assert (Ha : starts_clean a) by apply trim_left_clean.
  assert (Hb : starts_clean b) by apply trim_left_clean.
  destruct (trim_left_suffix (String.rev a)) as [p Hp]. fold b in Hp.
  assert (Hc : starts_clean (String.rev b)).
  { destruct (decide (String.rev b = "")) as [->|Hne]; [done|].
    apply (starts_clean_append _ (String.rev p)); [done|].
    by rewrite <- rev_append, <- Hp, rev_involutive. }
  by rewrite (trim_left_of_clean _ Hc), rev_involutive, (trim_left_of_clean _ Hb).
Qed.

(** ** The query of an opportunity search *)

Lemma lookup_foldl_copy (f : obj -> string -> obj) (c : bool) (v : value)
    (keys : list string) (o : obj) (k : string) :
  (forall o k0, f o k0 !! k = if bool_decide (k = k0) && c then Some v else o !! k) ->
  foldl f o keys !! k = if bool_decide (k ∈ keys) && c then Some v else o !! k.
Proof.
  intros Hf. revert o. induction keys as [|k0 keys IH]; intros o; [done|].
  cbn [foldl]. rewrite IH, Hf.
  destruct (decide (k = k0)) as [->|Hne].
  - rewrite (bool_decide_eq_true_2 (k0 = k0)) by done.
    rewrite (bool_decide_eq_true_2 (k0 ∈ k0 :: keys)) by (apply elem_of_cons; by left).
    by destruct (bool_decide (k0 ∈ keys)), c.
  - rewrite (bool_decide_eq_false_2 (k = k0)) by done.
    rewrite (bool_decide_ext (k ∈ k0 :: keys) (k ∈ keys)); [done|].
    rewrite elem_of_cons. split; [by intros [?|?]|by right].
Qed.

Lemma lookup_copy_truthy src (o : obj) (k k0 : string) :
  copy_truthy src o k0 !! k
  = if bool_decide (k = k0) && truthy (get_opt src k) then Some (get_opt src k) else o !! k.
Proof.
  unfold copy_truthy, assign_when. case_bool_decide as Hk; [subst k0|].
  - destruct (truthy (get_opt src k)); [apply lookup_insert_eq|done].
  - destruct (truthy (get_opt src k0)); [by apply lookup_insert_ne|done].
Qed.

Lemma lookup_copy_defined src (o : obj) (k k0 : string) :
  copy_defined src o k0 !! k
  = if bool_decide (k = k0) && negb (is_undefined (get_opt src k))
    then Some (get_opt src k) else o !! k.
Proof.
  unfold copy_defined. case_bool_decide as Hk; [subst k0|].
  - destruct (get_opt src k); first [done|apply lookup_insert_eq].
  - destruct (get_opt src k0); first [done|by apply lookup_insert_ne].
Qed.

Lemma lookup_assign_when (c : bool) (k0 k : string) (v : value) (o : obj) :
  assign_when c k0 v o !! k = if bool_decide (k = k0) && c then Some v else o !! k.
Proof.
  unfold assign_when. case_bool_decide as Hk; [subst k0|].
  - destruct c; [apply lookup_insert_eq|done].
  - destruct c; [by apply lookup_insert_ne|done].
Qed.

(** The client sends a query on unchanged when it is in the form the
    client itself would give it: scoped by the configured location, with
    a trimmed text, and with truthy values under the names it copies. *)
Lemma searchOpportunities_params_kept cfg (sp : obj) :
  sp !! "location_id" = Some (locationId cfg) ->
  (sp !! "q" = None
   \/ exists s, sp !! "q" = Some (VStr (trim s)) /\ truthy (VStr (trim s)) = true) ->
  (forall k v, sp !! k = Some v ->
     k = "location_id" \/ k = "q" \/ (k ∈ copied_when_truthy /\ truthy v = true)) ->
  searchOpportunities_params cfg (VObj sp) = ret sp.
Proof.
  intros Hloc Hq Hkeys. unfold searchOpportunities_params.
  rewrite !prop_obj, !bind_ret. rewrite (get_opt_obj sp "location_id"), Hloc.
  cbn [default from_option id]. rewrite js_or_same.
  assert (exists p1 : obj,
             assign_trimmed "searchParams.q" (get_opt (VObj sp) "q") "q"
               (<["location_id" := locationId cfg]> ∅) = ret p1
             /\ p1 !! "q" = sp !! "q"
             /\ forall k, k <> "q" ->
                  p1 !! k = (<["location_id" := locationId cfg]> ∅ : obj) !! k)
    as (p1 & -> & Hp1q & Hp1).
  { rewrite get_opt_obj. destruct Hq as [Hq|(s & Hq & Ht)]; rewrite Hq; cbn [default from_option id].
    - eexists. split; [reflexivity|]. by split.
    - unfold assign_trimmed. rewrite Ht. cbn [call_trim]. rewrite bind_ret.
      rewrite trim_idempotent, Ht. eexists. split; [reflexivity|].
      unfold assign_when. split; [apply lookup_insert_eq|].
      intros k Hk. by apply lookup_insert_ne. }
  rewrite bind_ret. f_equal. apply map_eq. intros k.
  rewrite (lookup_foldl_copy _ (negb (is_undefined (get_opt (VObj sp) k)))
             (get_opt (VObj sp) k)) by (intros; apply lookup_copy_defined).
  rewrite (lookup_foldl_copy _ (truthy (get_opt (VObj sp) k))
             (get_opt (VObj sp) k)) by (intros; apply lookup_copy_truthy).
  rewrite get_opt_obj. destruct (sp !! k) as [v|] eqn:E; cbn [default from_option id].
  - destruct (Hkeys k v E) as [->|[->|[Hin Hv]]].
    + rewrite !bool_decide_eq_false_2
        by (rewrite ?not_elem_of_cons; repeat split; try done; apply not_elem_of_nil).
      cbn [andb]. rewrite Hp1 by done. rewrite lookup_insert_eq. congruence.
    + rewrite !bool_decide_eq_false_2
        by (rewrite ?not_elem_of_cons; repeat split; try done; apply not_elem_of_nil).
      cbn [andb]. congruence.
    + fold copied_when_truthy. rewrite (bool_decide_eq_true_2 _ Hin), Hv. cbn [andb].
      by destruct (_ && _).
  - cbn [is_undefined truthy negb]. rewrite !andb_false_r.
    destruct (decide (k = "q")) as [->|Hk]; [congruence|].
    rewrite Hp1 by done. apply lookup_insert_None. split; [done|]. congruence.
Qed.

Lemma OpportunityTools_searchParams_run cfg (o : obj) (w : World) :
  OpportunityTools_searchParams cfg (VObj o) w
  = if trims (get_opt (VObj o) "query")
    then (Returned (tool_search_params cfg (VObj o)), w)
    else (Thrown (Error "params.query.trim is not a function"), w).
Proof.
  unfold OpportunityTools_searchParams, tool_search_params, trimmed_text, trims,
    assign_trimmed.
  rewrite !prop_obj, !bind_ret.
  destruct (get_opt (VObj o) "query") as [| |b|n|s|l|q] eqn:E; cbn [truthy negb];
    try reflexivity.
  - by destruct b.
  - by destruct (n =? 0)%Z.
  - destruct (String.eqb s "") eqn:Es; cbn [negb].
    + apply String.eqb_eq in Es as ->. reflexivity.
    + cbn [call_trim]. rewrite bind_ret. unfold assign_when at 6. cbn [truthy].
      by destruct (negb (String.eqb (trim s) "")).
Qed.

Lemma lookup_tool_search_params cfg (params : value) (k : string) (v : value) :
  tool_search_params cfg params !! k = Some v ->
  k = "location_id" \/ k = "q" \/ (k ∈ copied_when_truthy /\ truthy v = true).
Proof.
  unfold tool_search_params. cbv zeta. rewrite !lookup_assign_when.
  repeat (case_bool_decide;
            [subst k; cbn [andb];
             match goal with |- context [truthy ?x] => destruct (truthy x) eqn:? end;
             [intros [= <-]; right; right; split; [|done];
              unfold copied_when_truthy; rewrite !elem_of_cons; repeat first [by left|right]|]
            |cbn [andb]]).
  all: destruct (trimmed_text (get_opt params "query")) as [t|];
    rewrite ?lookup_insert_Some, ?lookup_empty; intros Hv.
  all: repeat match goal with
         | H : _ \/ _ |- _ => destruct H
         | H : _ /\ _ |- _ => destruct H
         end; subst; try discriminate; try (by left); try (right; by left).
  all: right; right; split;
    [unfold copied_when_truthy; rewrite !elem_of_cons; repeat first [by left|right]|].
  all: unfold js_or;
    match goal with |- context [truthy ?x] => by destruct (truthy x) eqn:? end.
Qed.

Lemma searchOpportunities_forwards (cfg : ClientConfig) (params : value) (w : World) :
  locationId cfg = locationId (config (ghlClient w)) ->
  sent (snd (searchOpportunities (VObj (tool_search_params cfg params)) w))
  = sent w ++ [outgoing w (mkRequest "GET" "/opportunities/search"
                             (Some (tool_search_params cfg params)) NoBody ∅)].
Proof.
  intros Hcfg. unfold searchOpportunities.
  rewrite snd_try_catch_silent by auto with js_frame. rewrite this_config_run.
  rewrite searchOpportunities_params_kept.
  - rewrite bind_ret. unfold axios_get.
    rewrite snd_bind_silent by (intros r; auto with js_frame).
    by rewrite axios_request_world.
  - unfold tool_search_params. cbv zeta. rewrite !lookup_assign_when_ne by done.
    destruct (trimmed_text _); rewrite !lookup_insert_ne by done;
      rewrite lookup_insert_eq; by rewrite Hcfg.
  - unfold tool_search_params. cbv zeta. rewrite !lookup_assign_when_ne by done.
    unfold trimmed_text. destruct (get_opt params "query") as [| |b|n|s|l|q];
      try (left; by rewrite !lookup_insert_ne by done).
    destruct (truthy (VStr (trim s))) eqn:Ht.
    + right. exists s. by rewrite lookup_insert_eq.
    + left. by rewrite !lookup_insert_ne by done.
  - apply lookup_tool_search_params.
Qed.


(** ** The contact search tool *)

(** What [searchContacts] hands back: a wrapped response, or the failure
    record made from a caught error, which carries no response. *)
Lemma searchContacts_outcome (p : value) (w : World) :
  exists r w',
    searchContacts p w = (Returned r, w')
    /\ ((exists d, r = wrapResponse d)
        \/ (exists x, exn_response x = None
                      /\ r = {| success := false; result_data := VUndefined;
                                error := Some {| message := exn_message (handleApiError x);
                                                 statusCode := 500;
                                                 details := VUndefined |} |}))
    /\ (http_fails w -> success r = false).
Proof.
  unfold searchContacts, try_catch.
  pose proof (searchContacts_body_plain p w) as Hp.
  pose proof (searchContacts_body_meets_failure p w) as Hf.
  match goal with |- context [match ?m w with _ => _ end] =>
    assert (wraps m) as Hw by structural;
    specialize (Hw w); destruct (m w) as [[a|x] w1] eqn:Hm end.
  - eexists _, _. split; [reflexivity|]. split; [left; by eapply Hw|].
    intros H. destruct (Hf H) as (e & w' & [=]).
  - eexists _, _. split; [reflexivity|]. split; [|done].
    right. exists x. split; [by eapply Hp|]. cbn.
    unfold response_status, response_data. by rewrite (Hp x w1 eq_refl).
Qed.



(** ** The requests of the update tools *)

Lemma getConversationHeaders_run {B} (k : obj -> M B) (w : World) :
  bind getConversationHeaders k w = k (conversation_headers (ghlClient w)) w.
Proof. reflexivity. Qed.

Lemma request_world {A} (r : Request) (k : Response -> M A) (w : World) :
  (forall resp, silent (k resp)) ->
  snd (bind (axios_request r) k w) = record_sent (outgoing w r) w.
Proof. intros Hk. by rewrite snd_bind_silent, axios_request_world. Qed.

Lemma silent_destructure what v k : silent (destructure what v k).
Proof. destruct v; first [apply silent_ret|apply silent_throw]. Qed.

Lemma silent_join_opt what sep v : silent (join_opt what sep v).
Proof. destruct v; first [apply silent_ret|apply silent_throw]. Qed.

Lemma silent_mapM {A B} (f : A -> M B) (l : list A) :
  (forall a, silent (f a)) -> silent (mapM f l).
Proof.
  intros Hf. induction l as [|a l IH]; cbn [mapM]; auto using silent_ret, silent_bind.
Qed.

Lemma silent_recent_summary conv : silent (recent_summary conv).
Proof. unfold recent_summary. auto 20 with js_frame. Qed.

Lemma silent_array_map what v : silent (array_map what recent_summary v).
Proof.
  destruct v; cbn [array_map]; try apply silent_throw.
  apply silent_bind; [apply silent_mapM, silent_recent_summary|intros; apply silent_ret].
Qed.

#[local] Hint Resolve silent_destructure silent_join_opt silent_array_map : js_frame.

Lemma updateLocation_world (locationId updates : value) (w : World) :
  snd (updateLocation locationId updates w)
  = record_sent (outgoing w (mkRequest "PUT" ("/locations/" +:+ to_string locationId)
                               None (JsonBody updates) ∅)) w.
Proof.
  unfold updateLocation, axios_put. rewrite snd_try_catch_silent by auto with js_frame.
  apply request_world. auto with js_frame.
Qed.

Lemma updateOpportunity_world (opportunityId updates : value) (w : World) :
  snd (updateOpportunity opportunityId updates w)
  = record_sent (outgoing w (mkRequest "PUT" ("/opportunities/" +:+ to_string opportunityId)
                               None (JsonBody updates) ∅)) w.
Proof.
  unfold updateOpportunity, axios_put. rewrite snd_try_catch_silent by auto with js_frame.
  apply request_world. auto with js_frame.
Qed.


(** ** The requests of the conversation tools *)

Lemma searchConversations_world (sp : obj) (w : World) :
  snd (searchConversations (VObj sp) w)
  = record_sent
      (outgoing w
         (mkRequest "GET" "/conversations/search"
            (Some (<["locationId" := js_or (get_opt (VObj sp) "locationId")
                                        (locationId (config (ghlClient w)))]> sp))
            NoBody (conversation_headers (ghlClient w)))) w.
Proof.
  unfold searchConversations, axios_get. rewrite try_catch_rethrow.
  rewrite this_config_run, prop_obj, bind_ret, getConversationHeaders_run.
  apply request_world. auto with js_frame.
Qed.

Lemma sendMessage_world (messageData : value) (w : World) :
  snd (sendMessage messageData w)
  = record_sent
      (outgoing w (mkRequest "POST" "/conversations/messages" None (JsonBody messageData)
                     (conversation_headers (ghlClient w)))) w.
Proof.
  unfold sendMessage, axios_post. rewrite try_catch_rethrow, getConversationHeaders_run.
  apply request_world. auto with js_frame.
Qed.

Lemma truthy_js_or (v d : value) : truthy d = true -> truthy (js_or v d) = true.
Proof. intros Hd. unfold js_or. by destruct (truthy v) eqn:E. Qed.

Lemma all_or_unread (given : value) :
  (if is_all_or_unread given then given else VStr "unread")
  = VStr (if is_text "all" given then "all" else "unread").
Proof.
  destruct given as [| |b|n|s|l|q]; try reflexivity. cbn [is_all_or_unread is_text].
  destruct (String.eqb s "all") eqn:Ea; cbn [orb].
  - by apply String.eqb_eq in Ea as ->.
  - destruct (String.eqb s "unread") eqn:Eu; [|done].
    by apply String.eqb_eq in Eu as ->.
Qed.

Section ConversationToolFacts.
Variable error_string : Exn -> string.

(** X12: the query of [get_recent_messages].  Whatever the arguments
    hold, the tool sends exactly one request, GET /conversations/search
    under the conversation headers, and its query is: the configured
    location, the [limit] argument or 10 when that is falsy, the status
    "all" when the [status] argument is exactly that text and "unread" in
    every other case, and the fixed sorting by last message date,
    descending. *)
Theorem recent_messages_query (o : obj) (w : World) :
  sent (snd (ConversationTools_getRecentMessages error_string (VObj o) w))
  = sent w ++
    [outgoing w
       (mkRequest "GET" "/conversations/search"
          (Some (<["sort" := VStr "desc"]>
                (<["sortBy" := VStr "last_message_date"]>
                (<["status" := VStr (if is_text "all" (get_opt (VObj o) "status")
                                     then "all" else "unread")]>
                (<["limit" := js_or (get_opt (VObj o) "limit") (VNum 10)]>
                (<["locationId" := locationId (config (ghlClient w))]> ∅))))))
          NoBody (conversation_headers (ghlClient w)))].
Proof.
  unfold ConversationTools_getRecentMessages.
  rewrite snd_try_catch_silent by auto with js_frame.
  rewrite prop_obj, bind_ret. cbv zeta. rewrite getConfig_run, prop_obj, bind_ret.
  cbn [locationId].
  rewrite snd_bind_silent by (intros r; auto 10 with js_frame).
  rewrite searchConversations_world, all_or_unread.
  rewrite get_opt_obj, !lookup_insert_ne, lookup_insert_eq by done.
  cbn [default from_option id]. rewrite js_or_same.
  rewrite insert_id; [done|].
  by rewrite !lookup_insert_ne, lookup_insert_eq by done.
Qed.

(** X13: the requests of [send_sms] and [send_email].  Each tool sends
    exactly one POST /conversations/messages under the conversation
    headers.  The body of [send_sms] is the type "SMS" with [contactId],
    [message] and [fromNumber] as given.  The body of [send_email] holds
    the type "Email", the four named arguments and the four options the
    tool passes, each as given, and nothing else: although the client's
    [sendEmail] lets its options replace the named properties, no
    argument of the tool can change the type. *)
Theorem message_tools_requests (o : obj) (w : World) :
  sent (snd (ConversationTools_sendSMS error_string (VObj o) w))
  = sent w ++
    [outgoing w
       (mkRequest "POST" "/conversations/messages" None
          (JsonBody (VObj (<["fromNumber" := get_opt (VObj o) "fromNumber"]>
                          (<["message" := get_opt (VObj o) "message"]>
                          (<["contactId" := get_opt (VObj o) "contactId"]>
                          (<["type" := VStr "SMS"]> ∅))))))
          (conversation_headers (ghlClient w)))]
  /\ exists body : obj,
       sent (snd (ConversationTools_sendEmail error_string (VObj o) w))
       = sent w ++
         [outgoing w (mkRequest "POST" "/conversations/messages" None
                        (JsonBody (VObj body)) (conversation_headers (ghlClient w)))]
       /\ body !! "type" = Some (VStr "Email")
       /\ Forall (fun k => body !! k = Some (get_opt (VObj o) k))
            ["contactId"; "subject"; "message"; "html";
             "emailFrom"; "emailCc"; "emailBcc"; "attachments"]
       /\ (forall k, k ∉ ["type"; "contactId"; "subject"; "message"; "html";
                          "emailFrom"; "emailCc"; "emailBcc"; "attachments"] ->
                     body !! k = None).
Proof.
  split.
  - unfold ConversationTools_sendSMS.
    rewrite snd_try_catch_silent by auto with js_frame.
    rewrite !prop_obj, !bind_ret.
    rewrite snd_bind_silent by (intros r; cbv zeta; auto 10 with js_frame).
    unfold sendSMS. rewrite try_catch_rethrow. cbv zeta.
    by rewrite sendMessage_world.
  - unfold ConversationTools_sendEmail.
    rewrite snd_try_catch_silent by auto with js_frame.
    rewrite !prop_obj, !bind_ret. cbv zeta.
    rewrite snd_bind_silent by (intros r; auto 10 with js_frame).
    unfold sendEmail. rewrite try_catch_rethrow. cbv zeta.
    rewrite sendMessage_world. cbn [spread].
    eexists. split; [reflexivity|]. split; [|split].
    + rewrite lookup_union_r by (by rewrite !lookup_insert_ne by done).
      by rewrite !lookup_insert_ne, lookup_insert_eq by done.
    + repeat apply List.Forall_cons; try apply List.Forall_nil.
      1-4: rewrite lookup_union_r by (by rewrite !lookup_insert_ne by done);
        by rewrite ?lookup_insert_eq, ?lookup_insert_ne, ?lookup_insert_eq,
             ?lookup_insert_ne, ?lookup_insert_eq, ?lookup_insert_ne,
             ?lookup_insert_eq by done.
      all: apply lookup_union_Some_l;
        by rewrite ?lookup_insert_eq, ?lookup_insert_ne, ?lookup_insert_eq,
             ?lookup_insert_ne, ?lookup_insert_eq, ?lookup_insert_ne,
             ?lookup_insert_eq by done.
    + intros k Hk. rewrite !not_elem_of_cons in Hk.
      apply lookup_union_None. split;
        rewrite !lookup_insert_ne by (intros <-; tauto); apply lookup_empty.
Qed.

End ConversationToolFacts.

(** ** The two requests of [get_conversation] *)

Lemma getConversation_run (conversationId : value) (w : World) :
  getConversation conversationId w
  = (match fst (axios_request
                  (mkRequest "GET" ("/conversations/" +:+ to_string conversationId) None
                             NoBody (conversation_headers (ghlClient w))) w) with
     | Returned resp => Returned (wrapResponse (data resp))
     | Thrown e => Thrown e
     end,
     snd (axios_request
            (mkRequest "GET" ("/conversations/" +:+ to_string conversationId) None
                       NoBody (conversation_headers (ghlClient w))) w)).
Proof.
  unfold getConversation, axios_get. rewrite try_catch_rethrow, getConversationHeaders_run.
  unfold bind. by destruct (axios_request _ w) as [[resp|e] w1].
Qed.

Lemma getConversationMessages_world (conversationId : value) (options : obj) (w : World) :
  snd (getConversationMessages conversationId (VObj options) w)
  = record_sent
      (outgoing w
         (mkRequest "GET" ("/conversations/" +:+ to_string conversationId +:+ "/messages")
            (Some (foldl (copy_truthy (VObj options)) ∅ ["lastMessageId"; "limit"; "type"]))
            NoBody (conversation_headers (ghlClient w)))) w.
Proof.
  unfold getConversationMessages, axios_get. rewrite try_catch_rethrow. cbv zeta.
  rewrite getConversationHeaders_run. apply request_world. auto with js_frame.
Qed.

Lemma axios_request_accepted (r : Request) (w : World) :
  match fst (axios_request r w) with
  | Returned _ => accepted (remote w (sent w) (outgoing w r)) = true
  | Thrown _ => accepted (remote w (sent w) (outgoing w r)) = false
  end.
Proof.
  unfold axios_request. cbv zeta.
  destruct (remote w (sent w) (outgoing w r)) as [resp|text]; [|done].
  cbn [accepted]. by destruct (is_2xx (status resp)).
Qed.

Section ConversationSequence.
Variable error_string : Exn -> string.


End ConversationSequence.

(** ** The requests of the email tools *)

Lemma getEmailCampaigns_world (params : value) (w : World) :
  snd (getEmailCampaigns params w)
  = record_sent
      (outgoing w (mkRequest "GET" "/emails/schedule"
                     (Some (spread params
                            ∪ <["locationId" := locationId (config (ghlClient w))]> ∅))
                     NoBody ∅)) w.
Proof.
  unfold getEmailCampaigns, axios_get. rewrite snd_try_catch_silent by auto with js_frame.
  rewrite this_config_run. apply request_world. auto with js_frame.
Qed.

Lemma createEmailTemplate_world (params : value) (w : World) :
  snd (createEmailTemplate params w)
  = record_sent
      (outgoing w (mkRequest "POST" "/emails/builder" None
                     (JsonBody (VObj (spread params
                                      ∪ (<["type" := VStr "html"]>
                                         (<["locationId" :=
                                              locationId (config (ghlClient w))]> ∅)))))
                     ∅)) w.
Proof.
  unfold createEmailTemplate, axios_post. rewrite snd_try_catch_silent by auto with js_frame.
  rewrite this_config_run. apply request_world. auto with js_frame.
Qed.

Lemma updateEmailTemplate_world (o : obj) (w : World) :
  snd (updateEmailTemplate (VObj o) w)
  = record_sent
      (outgoing w (mkRequest "POST" "/emails/builder/data" None
                     (JsonBody (VObj (<["editorType" := VStr "html"]>
                                       (delete "templateId" o
                                        ∪ (<["templateId" := get_opt (VObj o) "templateId"]>
                                           (<["locationId" :=
                                                locationId (config (ghlClient w))]> ∅))))))
                     ∅)) w.
Proof.
  unfold updateEmailTemplate, axios_post. rewrite snd_try_catch_silent by auto with js_frame.
  cbn [destructure spread]. rewrite bind_ret. cbn [fst snd]. rewrite this_config_run.
  apply request_world. auto with js_frame.
Qed.

Section EmailToolFacts.
Variable error_string : Exn -> string.

(** X15: the email tools let the arguments override the defaults.  Each
    of [get_email_campaigns], [create_email_template] and
    [update_email_template] sends exactly one request, which carries
    every property of the argument object as given.  This includes
    [locationId]: the configured location is sent only when the
    arguments hold no such property, and a property that is present with
    a falsy value replaces it.  The template type "html" is a default of
    the same kind.  Two properties are not the caller's to set in
    [update_email_template]: [editorType] is always "html", and
    [templateId] is the argument's or undefined. *)
Theorem email_tools_merge_by_spread (o : obj) (w : World) :
  (exists q : obj,
     sent (snd (EmailTools_getEmailCampaigns error_string (VObj o) w))
     = sent w ++ [outgoing w (mkRequest "GET" "/emails/schedule" (Some q) NoBody ∅)]
     /\ q !! "locationId"
        = Some (default (locationId (config (ghlClient w))) (o !! "locationId"))
     /\ (forall k, k <> "locationId" -> q !! k = o !! k))
  /\ (exists body : obj,
        sent (snd (EmailTools_createEmailTemplate error_string (VObj o) w))
        = sent w ++ [outgoing w (mkRequest "POST" "/emails/builder" None
                                   (JsonBody (VObj body)) ∅)]
        /\ body !! "locationId"
           = Some (default (locationId (config (ghlClient w))) (o !! "locationId"))
        /\ body !! "type" = Some (default (VStr "html") (o !! "type"))
        /\ (forall k, k ∉ ["locationId"; "type"] -> body !! k = o !! k))
  /\ (exists body : obj,
        sent (snd (EmailTools_updateEmailTemplate error_string (VObj o) w))
        = sent w ++ [outgoing w (mkRequest "POST" "/emails/builder/data" None
                                   (JsonBody (VObj body)) ∅)]
        /\ body !! "editorType" = Some (VStr "html")
        /\ body !! "templateId" = Some (get_opt (VObj o) "templateId")
        /\ body !! "locationId"
           = Some (default (locationId (config (ghlClient w))) (o !! "locationId"))
        /\ (forall k, k ∉ ["editorType"; "templateId"; "locationId"] ->
                      body !! k = o !! k)).
Proof.
  split; [|split].
  - unfold EmailTools_getEmailCampaigns.
    rewrite snd_try_catch_silent by auto with js_frame.
    rewrite snd_bind_silent by (intros r; cbv zeta; auto 10 with js_frame).
    rewrite getEmailCampaigns_world. cbn [spread].
    eexists. split; [reflexivity|]. split.
    + rewrite lookup_union, lookup_insert_eq. by destruct (o !! "locationId").
    + intros k Hk. rewrite lookup_union, lookup_insert_ne, lookup_empty by done.
      by destruct (o !! k).
  - unfold EmailTools_createEmailTemplate.
    rewrite snd_try_catch_silent by auto with js_frame.
    rewrite snd_bind_silent by (intros r; auto 10 with js_frame).
    rewrite createEmailTemplate_world. cbn [spread].
    eexists. split; [reflexivity|]. split; [|split].
    + rewrite lookup_union, lookup_insert_ne, lookup_insert_eq by done.
      by destruct (o !! "locationId").
    + rewrite lookup_union, lookup_insert_eq. by destruct (o !! "type").
    + intros k Hk. rewrite !not_elem_of_cons in Hk.
      rewrite lookup_union, !lookup_insert_ne, lookup_empty by (intros <-; tauto).
      by destruct (o !! k).
  - unfold EmailTools_updateEmailTemplate.
    rewrite snd_try_catch_silent by auto with js_frame.
    rewrite snd_bind_silent by (intros r; auto 10 with js_frame).
    rewrite updateEmailTemplate_world.
    eexists. split; [reflexivity|]. split; [|split; [|split]].
    + apply lookup_insert_eq.
    + rewrite lookup_insert_ne, lookup_union, lookup_delete_eq, lookup_insert_eq by done.
      done.
    + rewrite lookup_insert_ne, lookup_union, lookup_delete_ne by done.
      rewrite lookup_insert_ne, lookup_insert_eq by done.
      by destruct (o !! "locationId").
    + intros k Hk. rewrite !not_elem_of_cons in Hk.
      rewrite lookup_insert_ne, lookup_union, lookup_delete_ne by (intros <-; tauto).
      rewrite !lookup_insert_ne, lookup_empty by (intros <-; tauto).
      by destruct (o !! k).
Qed.

End EmailToolFacts.

(** ** The workflow tool *)

Lemma js_or_empty_text (v d : value) : js_or (js_or v (VStr "")) d = js_or v d.
Proof. unfold js_or. by destruct (truthy v) eqn:E; [rewrite E|]. Qed.

Lemma workflows_request_fallback (cfg : ClientConfig) (o : obj) :
  workflows_request cfg
    (VObj (<["locationId" := js_or (get_opt (VObj o) "locationId") (VStr "")]> ∅))
  = workflows_request cfg (VObj o).
Proof.
  unfold workflows_request.
  rewrite (get_opt_obj (<["locationId" := _]> ∅)), lookup_insert_eq.
  cbn [default from_option id]. by rewrite js_or_empty_text.
Qed.

Lemma getWorkflows_run (o : obj) (w : World) :
  getWorkflows (VObj o) w
  = (match fst (axios_request (workflows_request (config (ghlClient w)) (VObj o)) w) with
     | Returned resp => Returned (wrapResponse (data resp))
     | Thrown e => Thrown (handleApiError e)
     end,
     record_sent (outgoing w (workflows_request (config (ghlClient w)) (VObj o))) w).
Proof.
  unfold getWorkflows, axios_get, try_catch. rewrite this_config_run, prop_obj, bind_ret.
  fold (workflows_request (config (ghlClient w)) (VObj o)).
  pose proof (axios_request_world (workflows_request (config (ghlClient w)) (VObj o)) w) as Hw.
  unfold bind. by destruct (axios_request _ w) as [[resp|e] w1]; cbn [fst snd] in *; subst w1.
Qed.

Section WorkflowToolFacts.
Variable inherited_text : string -> string.

Lemma silent_count_statuses (l : list value) (acc : gmap string Counter) :
  silent (count_statuses inherited_text acc l).
Proof.
  revert acc. induction l as [|wf l IH]; intros acc; cbn [count_statuses];
    auto with js_frame.
Qed.

Lemma silent_workflow_statuses (v : value) : silent (workflow_statuses inherited_text v).
Proof.
  destruct v; cbn [workflow_statuses]; try apply silent_throw.
  apply silent_bind; [apply silent_count_statuses|intros; apply silent_ret].
Qed.

(** X16: the request and the doubled prefix of [ghl_get_workflows].  The
    tool sends exactly one request, GET /workflows/, whose only
    parameter is the [locationId] argument or, when that is falsy, the
    configured location: the empty text the tool puts in its place never
    reaches the API.  When the remote accepts the request with a falsy
    body, the tool throws, and the message carries the prefix twice. *)
Theorem get_workflows_request (o : obj) (w : World) :
  sent (snd (WorkflowTools_getWorkflows inherited_text (VObj o) w))
  = sent w ++ [outgoing w (workflows_request (config (ghlClient w)) (VObj o))]
  /\ (forall resp,
        remote w (sent w) (outgoing w (workflows_request (config (ghlClient w)) (VObj o)))
        = Answered resp ->
        is_2xx (status resp) = true ->
        truthy (data resp) = false ->
        fst (WorkflowTools_getWorkflows inherited_text (VObj o) w)
        = Thrown (Error "Failed to get workflows: Failed to get workflows: Unknown error")).
Proof.
  assert (forall r, silent
            (if failed r
             then throw (Error ("Failed to get workflows: "
                                +:+ error_message_or r "Unknown error"))
             else
               let* workflows := prop (result_data r) "workflows" in
               let* len := prop workflows "length" in
               let* statuses := workflow_statuses inherited_text workflows in
               ret (VObj (<["metadata" := VObj (<["workflowStatuses" := statuses]>
                                               (<["totalWorkflows" := len]> ∅))]>
                         (<["message" := VStr ("Successfully retrieved " +:+ to_string len
                                                +:+ " workflows")]>
                         (<["workflows" := workflows]>
                         (<["success" := VBool true]> ∅))))))) as Hk.
  { intros r. pose proof silent_workflow_statuses. auto 10 with js_frame. }
  unfold WorkflowTools_getWorkflows. rewrite prop_obj, bind_ret. split.
  - rewrite snd_try_catch_silent by auto with js_frame.
    rewrite snd_bind_silent by exact Hk.
    by rewrite getWorkflows_run, workflows_request_fallback.
  - intros resp Hr H2 Hd. unfold try_catch, bind.
    rewrite getWorkflows_run, workflows_request_fallback.
    rewrite (axios_request_ok _ _ resp Hr H2). cbn [fst].
    unfold failed, wrapResponse. cbn [success result_data negb orb].
    by rewrite Hd.
Qed.

End WorkflowToolFacts.

(** X16 against a remote that accepts with an empty body. *)
Lemma get_workflows_request_witness :
  fst (WorkflowTools_getWorkflows (fun _ => "") (VObj ∅) (world_of (answers (ok (VStr "")))))
  = Thrown (Error "Failed to get workflows: Failed to get workflows: Unknown error").
Proof.
  exact (proj2 (get_workflows_request (fun _ => "") ∅ (world_of (answers (ok (VStr "")))))
           (ok (VStr "")) eq_refl eq_refl eq_refl).
Defined.

(** ** The status histogram *)

Lemma total_count_insert (acc : gmap string Counter) (k : string) (c : Counter) :
  total_count (<[k := c]> acc) = counted c + total_count acc - tally acc k.
Proof.
  assert (forall (m : gmap string Counter) c', m !! k = None ->
            total_count (<[k := c']> m) = counted c' + total_count m) as Hfresh.
  { intros m c' Hm. unfold total_count. rewrite map_fold_insert_L; [done| |done].
    intros. lia. }
  unfold tally. destruct (acc !! k) as [c0|] eqn:E.
  - rewrite <- (insert_delete_id acc k c0 E) at 2.
    rewrite <- insert_delete_eq.
    rewrite !Hfresh by apply lookup_delete_eq. lia.
  - rewrite Hfresh by done. lia.
Qed.

Section Histogram.
Variable inherited_text : string -> string.

Lemma count_step_countable (acc : gmap string Counter) (workflow : value) :
  counts_only acc ->
  countable workflow = true ->
  exists n, 0 < n
    /\ count_step inherited_text acc (get_opt workflow "status")
       = <[status_of workflow := Count n]> acc
    /\ n = tally acc (status_of workflow) + 1.
Proof.
  intros Hacc Hc. unfold count_step, tally. fold (status_of workflow).
  assert (status_of workflow ∉ inherited_names) as Hn.
  { destruct workflow; try discriminate; cbn [countable] in Hc;
      by apply negb_true_iff, bool_decide_eq_false in Hc. }
  destruct (acc !! status_of workflow) as [c|] eqn:E.
  - destruct (Hacc _ _ E) as (n & -> & Hpos). exists (n + 1). cbn [counted].
    split; [lia|]. by split.
  - exists 1. split; [lia|]. split; [|done].
    rewrite bool_decide_eq_false_2 by done.
    destruct (String.eqb (status_of workflow) "__proto__") eqn:Ep; [|done].
    apply String.eqb_eq in Ep. exfalso. apply Hn. rewrite Ep.
    unfold inherited_names. rewrite !elem_of_cons. tauto.
Qed.

Lemma count_statuses_run (l : list value) (acc : gmap string Counter) (w : World) :
  counts_only acc ->
  forallb countable l = true ->
  exists acc',
    count_statuses inherited_text acc l w = (Returned acc', w)
    /\ counts_only acc'
    /\ (forall k, tally acc' k = tally acc k + occurrences k l)
    /\ total_count acc' = total_count acc + Z.of_nat (length l).
Proof.
  revert acc. induction l as [|wf l IH]; intros acc Hacc Hl.
  - exists acc. cbn [count_statuses occurrences length]. repeat split; [done|intros; lia|lia].
  - cbn [forallb] in Hl. apply andb_true_iff in Hl as [Hwf Hl].
    destruct (count_step_countable acc wf Hacc Hwf) as (n & Hpos & Hstep & Hn).
    assert (prop wf "status" = ret (get_opt wf "status")) as Hprop
      by (by destruct wf).
    cbn [count_statuses]. rewrite Hprop, bind_ret, Hstep.
    destruct (IH (<[status_of wf := Count n]> acc)) as (acc' & Hrun & Hacc' & Htally & Htotal).
    + intros k c. destruct (decide (k = status_of wf)) as [->|Hk].
      * rewrite lookup_insert_eq. intros [= <-]. eauto.
      * rewrite lookup_insert_ne by done. apply Hacc.
    + exact Hl.
    + exists acc'. split; [exact Hrun|]. split; [exact Hacc'|]. split.
      * intros k. rewrite Htally. cbn [occurrences]. unfold tally at 1.
        destruct (String.eqb (status_of wf) k) eqn:Ek.
        -- apply String.eqb_eq in Ek as <-. rewrite lookup_insert_eq. cbn [counted]. lia.
        -- apply String.eqb_neq in Ek. rewrite lookup_insert_ne by done.
           fold (tally acc k). lia.
      * rewrite Htotal, total_count_insert. cbn [counted length]. lia.
Qed.


End Histogram.


(** ** The verification tool *)

Lemma yields_any {A} (m : M A) : yields m (fun _ => True).
Proof. by intros w a w' _. Qed.

Lemma yields_if {A} (c : bool) (m1 m2 : M A) (Q : A -> Prop) :
  yields m1 Q -> yields m2 Q -> yields (if c then m1 else m2) Q.
Proof. by destruct c. Qed.

Lemma verifyEmail_fails (loc d : value) (w : World) :
  http_fails w ->
  exists x w', exn_response x = None
               /\ verifyEmail loc d w = (Thrown (handleApiError x), w').
Proof.
  intros Hf. unfold verifyEmail, try_catch, bind.
  match goal with |- context [axios_request ?r w] =>
    destruct (axios_request_fails r w Hf) as [raw ->] end.
  eexists (handleApiError raw), _. by split.
Qed.

Section VerifyFacts.
Variable positive_text : string -> bool.

(** X18: [verify_email] reports its failures in the result.  For an
    argument object the tool never throws: it returns an object with a
    boolean [success] and a text [message], and when every request fails
    that is [success: false] with the client's error after the prefix
    "Failed to verify email: ".  Without an argument object the
    [catch] block itself fails on [params.verify]: the tool throws the
    engine's TypeError, and nothing has been sent. *)
Theorem verify_email_reports_failures (o : obj) (w : World) :
  (exists (r : obj) (b : bool) (text : string),
     fst (EmailISVTools_verifyEmail positive_text (VObj o) w) = Returned (VObj r)
     /\ r !! "success" = Some (VBool b)
     /\ r !! "message" = Some (VStr text)
     /\ (http_fails w ->
         b = false
         /\ exists detail,
              text = "Failed to verify email: GHL API Error (500): " +:+ detail))
  /\ EmailISVTools_verifyEmail positive_text VUndefined w
     = (Thrown (type_error_read VUndefined "verify"), w)
  /\ EmailISVTools_verifyEmail positive_text VNull w
     = (Thrown (type_error_read VNull "verify"), w).
Proof.
  split; [|by split].
  unfold EmailISVTools_verifyEmail. rewrite !prop_obj, !bind_ret.
  match goal with |- context [try_catch ?m _ w] =>
    assert (yields m (fun v => exists (r : obj) (b : bool) (text : string),
                         v = VObj r /\ r !! "success" = Some (VBool b)
                         /\ r !! "message" = Some (VStr text))) as Hy;
    [|assert (http_fails w -> exists x w', exn_response x = None
                              /\ m w = (Thrown (handleApiError x), w')) as Hf;
      [|specialize (Hy w); unfold try_catch; destruct (m w) as [[v|e] w1] eqn:Hm]]
  end.
  - eapply yields_bind; [apply yields_any|intros result _].
    apply yields_if.
    + apply yields_ret. eexists _, false, _. split; [reflexivity|].
      split; [by rewrite !lookup_insert_ne, lookup_insert_eq by done|].
      apply lookup_insert_eq.
    + eapply yields_bind; [apply yields_any|intros isVerified _].
      eapply yields_bind; [apply yields_any|intros message _].
      apply yields_ret. eexists _, true, _. split; [reflexivity|].
      split; [by rewrite !lookup_insert_ne, lookup_insert_eq by done|].
      apply lookup_insert_eq.
  - intros H. unfold bind.
    match goal with |- context [verifyEmail ?l ?d w] =>
      destruct (verifyEmail_fails l d w H) as (x & w' & Hx & ->) end.
    by exists x, w'.
  - destruct (Hy v w1 eq_refl) as (r & b & text & -> & Hs & Ht).
    exists r, b, text. split; [done|]. split; [done|]. split; [done|].
    intros Hdown. destruct (Hf Hdown) as (x & w' & _ & [=]).
  - rewrite ?prop_obj, ?bind_ret. cbn [fst ret].
    eexists _, false, _. split; [reflexivity|].
    split; [by rewrite !lookup_insert_ne, lookup_insert_eq by done|].
    split; [apply lookup_insert_eq|].
    intros Hdown. split; [done|]. destruct (Hf Hdown) as (x & w' & Hx & [= -> _]).
    rewrite handleApiError_no_response by done. by eexists.
Qed.

End VerifyFacts.

(** X18 against a remote that answers 503. *)
Lemma verify_email_reports_failures_witness :
  exists (r : obj) (text : string),
    fst (EmailISVTools_verifyEmail (fun _ => false)
           (VObj (<["verify" := VStr "a@b.c"]> ∅)) (world_of (answers unavailable)))
    = Returned (VObj r)
    /\ r !! "success" = Some (VBool false)
    /\ r !! "message" = Some (VStr text)
    /\ exists detail, text = "Failed to verify email: GHL API Error (500): " +:+ detail.
Proof.
  destruct (verify_email_reports_failures (fun _ => false)
              (<["verify" := VStr "a@b.c"]> ∅) (world_of (answers unavailable)))
    as [(r & b & text & Hrun & Hs & Ht & Hfail) _].
  destruct (Hfail (fun req => eq_refl)) as [-> Hd].
  by exists r, text.
Defined.
